(** * Brand extraction, DOM-statistical strategy: colour and font aggregation

    A shallow embedding of the pure helpers of [DOMNaiveExtractor]
    (backend/brand_extraction/method1_dom_naive.py): [_process_fonts],
    [_process_colors], [_convert_to_hex], [_get_most_common_color] and
    [_get_contrast_ratio], together with the fallback colours of
    [BaseBrandExtractor._create_error_result] (backend/brand_extraction/base.py).

    Conventions.
    - A Python [str] is a [string]; characters are ASCII code points (the
      computed-style strings a browser reports).  [str.strip], [str.upper],
      [str.lower], the regular expression [\d+] and [int] are modelled on that
      range.
    - A Python [float] is a binary64 [float]; [/], [+], [*] and the comparisons
      are the IEEE operations.  The power operator [**] is the platform's
      [pow]; it is a parameter [fpow] of the development.
    - [webcolors.name_to_hex] is a third-party table; it is a parameter
      [name_to_hex] returning [None] where the library raises [ValueError].
    - A [try] block whose body can raise is a computation in [option];
      [None] stands for the raised exception and the handler supplies the
      value returned by the [except] clause. *)

From Stdlib Require Import List String Ascii Bool Arith ZArith Lia Floats.
Import ListNotations.

#[local] Open Scope string_scope.
#[local] Open Scope list_scope.

#[local] Set Warnings "-inexact-float".

(** ** Characters and strings as Python sees them *)

Module Py.

Definition code (c : ascii) : nat := nat_of_ascii c.

Definition in_range (lo hi : nat) (c : ascii) : bool :=
  (lo <=? code c)%nat && (code c <=? hi)%nat.

(** [str.isspace] on ASCII: TAB..CR, FS..US and the space. *)
Definition is_space (c : ascii) : bool := in_range 9 13 c || in_range 28 32 c.

(** [\d] on ASCII. *)
Definition is_digit (c : ascii) : bool := in_range 48 57 c.

Definition is_lower (c : ascii) : bool := in_range 97 122 c.
Definition is_upper (c : ascii) : bool := in_range 65 90 c.

Definition upper_char (c : ascii) : ascii :=
  if is_lower c then ascii_of_nat (code c - 32) else c.

Definition lower_char (c : ascii) : ascii :=
  if is_upper c then ascii_of_nat (code c + 32) else c.

Fixpoint map_string (f : ascii -> ascii) (s : string) : string :=
  match s with
  | EmptyString => EmptyString
  | String c t => String (f c) (map_string f t)
  end.

(** [s.upper()] and [s.lower()]. *)
Definition upper : string -> string := map_string upper_char.
Definition lower : string -> string := map_string lower_char.

(** [s.lstrip()] *)
Fixpoint lstrip (s : string) : string :=
  match s with
  | EmptyString => EmptyString
  | String c t => if is_space c then lstrip t else s
  end.

(** [s.rstrip()] *)
Fixpoint rstrip (s : string) : string :=
  match s with
  | EmptyString => EmptyString
  | String c t =>
      match rstrip t with
      | EmptyString => if is_space c then EmptyString else String c EmptyString
      | t' => String c t'
      end
  end.

(** [s.strip()] *)
Definition strip (s : string) : string := lstrip (rstrip s).

(** [s.lstrip(ch)] for a one-character argument. *)
Fixpoint lstrip_char (ch : ascii) (s : string) : string :=
  match s with
  | EmptyString => EmptyString
  | String c t => if Ascii.eqb c ch then lstrip_char ch t else s
  end.

(** [s.startswith(p)] *)
Definition startswith (p s : string) : bool := String.prefix p s.

(** The slice [s[i:j]] for [0 <= i <= j]. *)
Definition slice (i j : nat) (s : string) : string := String.substring i (j - i) s.

(** [x in l] for a set or list of strings. *)
Definition mem (x : string) (l : list string) : bool := existsb (String.eqb x) l.

(** Truthiness of an optional string: [None] and the empty string are false. *)
Definition truthy (o : option string) : bool :=
  match o with
  | Some (String _ _) => true
  | _ => false
  end.

(** Whether the first character of [s] is a digit. *)
Definition starts_with_digit (s : string) : bool :=
  match s with
  | String c _ => is_digit c
  | EmptyString => false
  end.

(** [re.findall(r'\d+', s)]: the maximal runs of digits, left to right.  A
    digit followed by a digit extends the first run of the rest; otherwise it
    is a run of its own. *)
Fixpoint findall_digits (s : string) : list string :=
  match s with
  | EmptyString => []
  | String c t =>
      if is_digit c then
        if starts_with_digit t then
          match findall_digits t with
          | r :: rs => String c r :: rs
          | [] => [String c EmptyString]
          end
        else String c EmptyString :: findall_digits t
      else findall_digits t
  end.

Definition digit_val (c : ascii) : Z := Z.of_nat (code c - 48).

(** CPython refuses to convert a decimal string of more than
    [sys.get_int_max_str_digits()] digits (4300 unless reconfigured). *)
Definition int_max_str_digits : nat := 4300.

(** [int(s)] for [s] a match of [\d+]; [None] is the [ValueError] of the
    digit limit. *)
Definition int_dec (s : string) : option Z :=
  if (int_max_str_digits <? String.length s)%nat then None
  else Some (fold_left (fun acc c => acc * 10 + digit_val c)%Z (list_ascii_of_string s) 0%Z).

(** Value of a base-16 digit. *)
Definition hex_val (c : ascii) : option Z :=
  if is_digit c then Some (Z.of_nat (code c - 48))
  else if in_range 97 102 c then Some (Z.of_nat (code c - 87))
  else if in_range 65 70 c then Some (Z.of_nat (code c - 55))
  else None.

(** The digits of [int(s, 16)] after sign and prefix: hexadecimal digits, with
    single underscores allowed between two digits.  [prev] tells whether the
    previous character was a digit. *)
Fixpoint hex_digits_value (prev : bool) (acc : Z) (s : string) : option Z :=
  match s with
  | EmptyString => if prev then Some acc else None
  | String c t =>
      if Ascii.eqb c "_" then
        if prev then hex_digits_value false acc t else None
      else
        match hex_val c with
        | Some d => hex_digits_value true (acc * 16 + d) t
        | None => None
        end
  end.

(** The white space that [int] skips around its argument: the C white space
    (TAB..CR and the space) and, beyond ASCII, U+0085 and U+00A0, which
    CPython replaces by spaces before it parses.  The separators FS..US,
    which [str.strip] removes, are not skipped: on a slice made of FS and
    the digit 5, [int(., 16)] raises [ValueError]. *)
Definition is_int_space (c : ascii) : bool :=
  in_range 9 13 c || Nat.eqb (code c) 32 || Nat.eqb (code c) 133 || Nat.eqb (code c) 160.

Fixpoint lstrip_int (s : string) : string :=
  match s with
  | EmptyString => EmptyString
  | String c t => if is_int_space c then lstrip_int t else s
  end.

Fixpoint rstrip_int (s : string) : string :=
  match s with
  | EmptyString => EmptyString
  | String c t =>
      match rstrip_int t with
      | EmptyString => if is_int_space c then EmptyString else String c EmptyString
      | t' => String c t'
      end
  end.

Definition strip_int (s : string) : string := lstrip_int (rstrip_int s).

(** [int(s, 16)]: surrounding white space, an optional sign, an optional
    [0x]/[0X] prefix (after which one underscore may precede the digits), then
    the digits.  [None] is the [ValueError]. *)
Definition int_hex_unsigned (s : string) : option Z :=
  match s with
  | String "0" (String x t) =>
      if Ascii.eqb x "x" || Ascii.eqb x "X" then
        match t with
        | String "_" t' => hex_digits_value false 0 t'
        | _ => hex_digits_value false 0 t
        end
      else hex_digits_value false 0 s
  | _ => hex_digits_value false 0 s
  end.

Definition int_hex (s : string) : option Z :=
  match strip_int s with
  | String "+" t => int_hex_unsigned t
  | String "-" t => option_map Z.opp (int_hex_unsigned t)
  | t => int_hex_unsigned t
  end.

(** One upper-case hexadecimal digit. *)
Definition hex_digit (d : Z) : ascii :=
  if (d <? 10)%Z then ascii_of_nat (48 + Z.to_nat d) else ascii_of_nat (55 + Z.to_nat d).

Fixpoint hex_upper_aux (fuel : nat) (n : Z) (acc : string) : string :=
  match fuel with
  | O => acc
  | S fuel' =>
      let acc' := String (hex_digit (n mod 16)) acc in
      if (n <? 16)%Z then acc' else hex_upper_aux fuel' (n / 16) acc'
  end.

(** [format(n, 'X')] for [n >= 0]: at most [log2 n + 1] digits are produced. *)
Definition hex_upper (n : Z) : string :=
  hex_upper_aux (S (Z.to_nat (Z.log2 n))) n EmptyString.

(** [f"{n:02X}"]: upper-case hexadecimal, zero-padded to width 2, the sign
    counted in the width. *)
Definition format_02X (n : Z) : string :=
  if (n <? 0)%Z then String "-" (hex_upper (- n))
  else
    let h := hex_upper n in
    if (String.length h <? 2)%nat then String "0" h else h.

End Py.

Import Py.

(** ** Font classification: [_process_fonts] *)

Definition generic_fonts : list string :=
  ["serif"; "sans-serif"; "monospace"; "cursive"; "fantasy"; "system-ui"].

Definition system_fonts : list string :=
  ["Arial"; "Helvetica"; "Times"; "Courier"; "Verdana"; "Georgia";
   "Palatino"; "Garamond"; "Bookman"; "Comic Sans MS"; "Trebuchet MS";
   "Arial Black"; "Impact"].

(** The two buckets filled by the loop over [fonts]. *)
Record FontBuckets : Type := mkBuckets {
  custom_fonts : list string;
  fallback_fonts : list string
}.

(** One iteration of [for font in fonts]. *)
Definition classify_font (b : FontBuckets) (font : string) : FontBuckets :=
  if negb (mem (lower font) generic_fonts) then
    if mem font system_fonts
    then mkBuckets (custom_fonts b) (fallback_fonts b ++ [font])
    else mkBuckets (custom_fonts b ++ [font]) (fallback_fonts b)
  else b.

Definition classify_fonts (fonts : list string) : FontBuckets :=
  fold_left classify_font fonts (mkBuckets [] []).

(** [custom_fonts[:2] if custom_fonts else fallback_fonts[:2]] *)
Definition preferred_fonts (b : FontBuckets) : list string :=
  match custom_fonts b with
  | [] => firstn 2 (fallback_fonts b)
  | _ :: _ => firstn 2 (custom_fonts b)
  end.

Definition padding_fonts : list string := ["Helvetica"; "Arial"; "sans-serif"].

(** The value under the key ["fonts"] of the dictionary returned by
    [_process_fonts].  No operation of the body raises on a list of strings. *)
Definition _process_fonts (fonts : list string) : list string :=
  let final_fonts := preferred_fonts (classify_fonts fonts) in
  if (List.length final_fonts <? 2)%nat
  then firstn 2 (final_fonts ++ padding_fonts)
  else final_fonts.

(** ** Colour roles *)

Record BrandColors : Type := mkBrandColors {
  primaryColor : string;
  secondaryColor : string;
  backgroundColor : string;
  linkColor : string
}.

(** The report of [BaseBrandExtractor._create_error_result]; the message is
    built from the method name, the free-form metadata is left out. *)
Record ExtractionResult : Type := mkResult {
  fonts : list string;
  result_colors : BrandColors;
  success : bool;
  message : string;
  method : string
}.

Definition _create_error_result (method_name error_message : string) : ExtractionResult :=
  mkResult ["Arial"; "sans-serif"]
           (mkBrandColors "#333333" "#666666" "#FFFFFF" "#0066CC")
           false
           (method_name ++ " failed: " ++ error_message)
           method_name.

(** ** [collections.Counter] *)

(** A counter keeps its keys in the order of their first insertion. *)
Definition counter : Type := list (string * nat).

Fixpoint counter_add (x : string) (cnt : counter) : counter :=
  match cnt with
  | [] => [(x, 1%nat)]
  | (k, n) :: rest =>
      if String.eqb k x then (k, S n) :: rest else (k, n) :: counter_add x rest
  end.

(** [Counter(l)] *)
Definition Counter (l : list string) : counter :=
  fold_left (fun cnt x => counter_add x cnt) l [].

(** [max(items, key=itemgetter(1))]: the first item of greatest count. *)
Fixpoint max_by_count (best : string * nat) (items : counter) : string * nat :=
  match items with
  | [] => best
  | it :: rest =>
      if (snd best <? snd it)%nat then max_by_count it rest else max_by_count best rest
  end.

(** [cnt.most_common(1)] *)
Definition most_common_1 (cnt : counter) : list (string * nat) :=
  match cnt with
  | [] => []
  | it :: rest => [max_by_count it rest]
  end.

(** [colors.get(key, [])] on a dictionary given by its items. *)
Fixpoint dict_get (key : string) (d : list (string * list string)) : list string :=
  match d with
  | [] => []
  | (k, v) :: rest => if String.eqb k key then v else dict_get key rest
  end.

(** [float(n)] for an integer of small magnitude. *)
Definition float_of_Z (n : Z) : float :=
  if (n <? 0)%Z then PrimFloat.opp (PrimFloat.of_uint63 (Uint63.of_Z (- n)))
  else PrimFloat.of_uint63 (Uint63.of_Z n).

(** [tuple(int(hex_color[i:i+2], 16) for i in (0, 2, 4))] after
    [hex_color.lstrip('#')]; [None] when an [int] raises. *)
Definition hex_to_rgb (hex_color : string) : option (Z * Z * Z) :=
  let hex_color := lstrip_char "#" hex_color in
  match int_hex (slice 0 2 hex_color) with
  | None => None
  | Some r =>
      match int_hex (slice 2 4 hex_color) with
      | None => None
      | Some g =>
          match int_hex (slice 4 6 hex_color) with
          | None => None
          | Some b => Some (r, g, b)
          end
      end
  end.

Section Model.

(** [webcolors.name_to_hex]: [None] where the library raises [ValueError]. *)
Variable name_to_hex : string -> option string.

(** The float power operator [x ** y]. *)
Variable fpow : float -> float -> float.

(** *** [_convert_to_hex] *)

(** The named-colour attempt and the final [return None]. *)
Definition named_color (color : string) : option string :=
  match name_to_hex color with
  | Some hex_color => Some (upper hex_color)
  | None => None
  end.

(** The body of the [try] of [_convert_to_hex].  The outer [option] is [None]
    when an exception escapes the body (an [int] that raises). *)
Definition convert_to_hex_body (color : string) : option (option string) :=
  let color := strip color in
  if startswith "#" color then Some (Some (upper color))
  else if startswith "rgb" color then
    match findall_digits color with
    | n0 :: n1 :: n2 :: _ =>
        match int_dec n0, int_dec n1, int_dec n2 with
        | Some r, Some g, Some b =>
            Some (Some ("#" ++ format_02X r ++ format_02X g ++ format_02X b)%string)
        | _, _, _ => None
        end
    | _ => Some (named_color color)
    end
  else Some (named_color color).

Definition _convert_to_hex (color : string) : option string :=
  match convert_to_hex_body color with
  | Some result => result
  | None => None
  end.

(** *** [_get_most_common_color] *)

(** [[c for c in color_list if c and c != '#FFFFFF' and c != '#000000']] *)
Fixpoint without_white_black (color_list : list (option string)) : list string :=
  match color_list with
  | [] => []
  | c :: rest =>
      match c with
      | Some h =>
          if truthy c && negb (String.eqb h "#FFFFFF") && negb (String.eqb h "#000000")
          then h :: without_white_black rest
          else without_white_black rest
      | None => without_white_black rest
      end
  end.

Definition _get_most_common_color (color_list : list (option string)) (default : string)
  : string :=
  match without_white_black color_list with
  | [] => default
  | filtered_colors =>
      match most_common_1 (Counter filtered_colors) with
      | (c, _) :: _ => c
      | [] => default
      end
  end.

(** *** [_get_contrast_ratio] *)

#[local] Open Scope float_scope.

(** One channel of [rgb_linear]. *)
Definition linear_channel (n : Z) : float :=
  let c := float_of_Z n / 255 in
  if c <=? 0.03928 then c / 12.92 else fpow ((c + 0.055) / 1.055) 2.4.

(** The inner function [luminance]; [None] when it raises. *)
Definition luminance (hex_color : string) : option float :=
  match hex_to_rgb hex_color with
  | Some (r, g, b) =>
      Some (0.2126 * linear_channel r + 0.7152 * linear_channel g
            + 0.0722 * linear_channel b)
  | None => None
  end.

(** [max(a, b)] and [min(a, b)] of two floats: the second argument is chosen
    only when it is strictly greater (smaller). *)
Definition fmax (a b : float) : float := if a <? b then b else a.
Definition fmin (a b : float) : float := if b <? a then b else a.

(** Float division; [None] is the [ZeroDivisionError]. *)
Definition fdiv (a b : float) : option float :=
  if b =? 0 then None else Some (a / b).

(** The body of the [try] of [_get_contrast_ratio]. *)
Definition contrast_ratio_body (color1 color2 : string) : option float :=
  match luminance color1 with
  | None => None
  | Some lum1 =>
      match luminance color2 with
      | None => None
      | Some lum2 =>
          let lighter := fmax lum1 lum2 in
          let darker := fmin lum1 lum2 in
          fdiv (lighter + 0.05) (darker + 0.05)
      end
  end.

Definition _get_contrast_ratio (color1 color2 : string) : float :=
  match contrast_ratio_body color1 color2 with
  | Some ratio => ratio
  | None => 1.0
  end.

#[local] Close Scope float_scope.

(** *** [_process_colors] *)

(** The normalised colours kept by the loop: [if hex_color: all_colors.append]. *)
Definition hex_colors_of (color_list : list string) : list string :=
  flat_map (fun color =>
              match _convert_to_hex color with
              | Some hex_color => if truthy (Some hex_color) then [hex_color] else []
              | None => []
              end) color_list.

Definition all_colors (colors : list (string * list string)) : list string :=
  flat_map (fun item => hex_colors_of (snd item)) colors.

Definition excluded_colors : list string := ["#FFFFFF"; "#000000"; "#TRANSPARENT"].

(** [{color: count for color, count in color_counts.items()
      if color not in excluded_colors}] *)
Definition filtered_colors (color_counts : counter) : counter :=
  filter (fun item => negb (mem (fst item) excluded_colors)) color_counts.

(** [list(filtered_colors.keys())[:10] if filtered_colors else ['#333333']] *)
Definition most_common (colors : list (string * list string)) : list string :=
  match filtered_colors (Counter (all_colors colors)) with
  | [] => ["#333333"]
  | filtered => firstn 10 (map fst filtered)
  end.

Definition background_color (colors : list (string * list string)) : string :=
  _get_most_common_color (map _convert_to_hex (dict_get "backgroundColors" colors)) "#FFFFFF".

Definition link_color (colors : list (string * list string)) : string :=
  _get_most_common_color (map _convert_to_hex (dict_get "linkColors" colors)) "#0066CC".

(** [most_common[1] if len(most_common) > 1 else '#666666'] *)
Definition second_or_default (l : list string) : string :=
  if (1 <? List.length l)%nat then nth 1 l "#666666" else "#666666".

(** The secondary colour before the legibility check. *)
Definition chosen_secondary (colors : list (string * list string)) : string :=
  second_or_default (most_common colors).

(** The body of [_process_colors].  On a dictionary of lists of strings none of
    its operations raises, so the handler's value ([error_colors]) is never
    returned on such an input. *)
Definition _process_colors (colors : list (string * list string)) : BrandColors :=
  let most_common := most_common colors in
  let bg_color := background_color colors in
  let link_color := link_color colors in
  let primary_color :=
    match most_common with
    | c :: _ => c
    | [] => "#333333"
    end in
  let secondary_color := second_or_default most_common in
  let secondary_color :=
    if PrimFloat.ltb (_get_contrast_ratio secondary_color bg_color) 3
    then (if negb (String.eqb bg_color "#333333") then "#333333" else "#FFFFFF")
    else secondary_color in
  mkBrandColors primary_color secondary_color bg_color link_color.

(** The value returned by the [except] clause of [_process_colors]. *)
Definition error_colors : BrandColors :=
  mkBrandColors "#333333" "#666666" "#FFFFFF" "#0066CC".

End Model.

(** ** Vocabulary of the statements *)

Definition is_hex_digit (c : ascii) : bool :=
  match hex_val c with
  | Some _ => true
  | None => false
  end.

(** An upper-case hexadecimal digit: [0-9] or [A-F]. *)
Definition is_upper_hex_digit (c : ascii) : bool := is_digit c || in_range 65 70 c.

Fixpoint forallb_string (p : ascii -> bool) (s : string) : bool :=
  match s with
  | EmptyString => true
  | String c t => p c && forallb_string p t
  end.

(** A NormalizedColor: ['#'] followed by exactly six upper-case hexadecimal digits. *)
Definition is_normalized_color (s : string) : bool :=
  match s with
  | String "#" t => (String.length t =? 6)%nat && forallb_string is_upper_hex_digit t
  | _ => false
  end.

(** A well-formed six-digit hexadecimal colour, in either letter case. *)
Definition is_hex6_color (s : string) : bool :=
  match s with
  | String "#" t => (String.length t =? 6)%nat && forallb_string is_hex_digit t
  | _ => false
  end.

(** [str(n)] for [n >= 0]. *)
Fixpoint decimal_aux (fuel : nat) (n : Z) (acc : string) : string :=
  match fuel with
  | O => acc
  | S fuel' =>
      let acc' := String (ascii_of_nat (48 + Z.to_nat (n mod 10))) acc in
      if (n <? 10)%Z then acc' else decimal_aux fuel' (n / 10) acc'
  end.

Definition decimal (n : Z) : string :=
  decimal_aux (S (Z.to_nat (Z.log2 n))) n EmptyString.

(** The first three numbers of an [rgb(...)] text are all at most 255 (vacuous
    when there are fewer than three). *)
Definition channels_in_range (color : string) : bool :=
  match findall_digits color with
  | n0 :: n1 :: n2 :: _ =>
      forallb (fun n => match int_dec n with
                        | Some v => (v <=? 255)%Z
                        | None => true
                        end) [n0; n1; n2]
  | _ => true
  end.

(** No character of [s] is a digit. *)
Definition no_digit (s : string) : bool := forallb_string (fun c => negb (is_digit c)) s.

(** Every character of [s] is a digit. *)
Definition all_digit (s : string) : bool := forallb_string is_digit s.

(** A separator between two numbers: not empty and free of digits. *)
Definition separator (s : string) : bool :=
  match s with
  | EmptyString => false
  | String _ _ => no_digit s
  end.

(** What is checked of a channel value [v] over the range 0..255: its decimal
    text is a short run of digits that [int] reads back, and [format_02X]
    writes two upper-case hexadecimal digits that [int(., 16)] reads back. *)
Definition channel_ok (v : Z) : bool :=
  all_digit (decimal v)
  && (match decimal v with EmptyString => false | String _ _ => true end)
  && (match int_dec (decimal v) with Some v' => (v' =? v)%Z | None => false end)
  && (match format_02X v with
      | String a (String b EmptyString) =>
          is_upper_hex_digit a && is_upper_hex_digit b
          && (match int_hex (String a (String b EmptyString)) with
              | Some v' => (v' =? v)%Z
              | None => false
              end)
      | _ => false
      end).

(** The constant colours of role selection. *)
Definition fixed_colors : list string := ["#333333"; "#666666"; "#FFFFFF"; "#0066CC"].

(** [c] is the normalisation of one of the strings of the observation map. *)
Definition normalized_input (name_to_hex : string -> option string)
  (colors : list (string * list string)) (c : string) : Prop :=
  exists key color_list raw,
    In (key, color_list) colors /\ In raw color_list
    /\ _convert_to_hex name_to_hex raw = Some c.

(** Every observation of the map is rejected by [_convert_to_hex]. *)
Definition all_unparseable (name_to_hex : string -> option string)
  (colors : list (string * list string)) : Prop :=
  forall key color_list raw,
    In (key, color_list) colors -> In raw color_list ->
    _convert_to_hex name_to_hex raw = None.

(** [n] occurrences of [x] in [l]. *)
Definition occurrences (x : string) (l : list string) : nat :=
  List.length (filter (String.eqb x) l).

(** *** A reference power function for examples

    [x ** 2.4] computed as [x^2 * (x^(1/5))^2], the fifth root by Newton's
    iteration from 1.  It is used only to instantiate [fpow] on concrete
    inputs. *)

Fixpoint root5_iter (k : nat) (x r : float) : float :=
  match k with
  | O => r
  | S k' => root5_iter k' x ((4 * r + x / (r * r * r * r)) / 5)%float
  end.

Definition pow_ref (x y : float) : float :=
  let r := root5_iter 64 x 1%float in
  (x * x * (r * r))%float.

(** The table that knows no colour name. *)
Definition no_names (name : string) : option string := None.

(** ** Palette colours of the screenshot strategy

    [ScreenshotPaletteExtractor._extract_colors_from_screenshot]
    (backend/brand_extraction/method4_screenshot_palette.py).  The palette is
    what [ColorThief.get_palette] returns, a list of RGB triples; [None]
    stands for an exception raised while the image is read or quantised. *)

(** [f"#{rgb[0]:02X}{rgb[1]:02X}{rgb[2]:02X}"] *)
Definition rgb_to_hex (rgb : Z * Z * Z) : string :=
  let '(r, g, b) := rgb in
  ("#" ++ format_02X r ++ format_02X g ++ format_02X b)%string.

(** The colours returned by the [except] clause. *)
Definition default_palette : list string :=
  ["#FF5733"; "#33FF57"; "#3357FF"; "#FFD700"; "#800080";
   "#FF1493"; "#00CED1"; "#32CD32"; "#FF6347"; "#9370DB"].

Definition _extract_colors_from_screenshot (palette : option (list (Z * Z * Z)))
  : list string :=
  match palette with
  | Some dominant_colors => map rgb_to_hex dominant_colors
  | None => default_palette
  end.

(** The colour of the label drawn on a swatch by [_create_palette_image]:
    [rgb = tuple(int(hex_color[i:i+2], 16) for i in (1, 3, 5))],
    [brightness = (rgb[0] * 299 + rgb[1] * 587 + rgb[2] * 114) / 1000] and
    ["white" if brightness < 128 else "black"].  [None] when an [int] raises.
    These lines are reached only after [draw.rectangle] has accepted
    [hex_color] as a fill colour; the two functions describe them on the
    colours it accepts, the NormalizedColors among them. *)
Definition swatch_rgb (hex_color : string) : option (Z * Z * Z) :=
  match int_hex (slice 1 3 hex_color) with
  | None => None
  | Some r =>
      match int_hex (slice 3 5 hex_color) with
      | None => None
      | Some g =>
          match int_hex (slice 5 7 hex_color) with
          | None => None
          | Some b => Some (r, g, b)
          end
      end
  end.

Definition swatch_text_color (hex_color : string) : option string :=
  match swatch_rgb hex_color with
  | Some (r, g, b) =>
      let brightness := (float_of_Z (r * 299 + g * 587 + b * 114) / 1000)%float in
      Some (if (brightness <? 128)%float then "white" else "black")
  | None => None
  end.

(** ** Vocabulary of the further properties *)

(** The font tests of the loop of [_process_fonts]. *)
Definition is_generic (font : string) : bool := mem (lower font) generic_fonts.

Definition is_custom (font : string) : bool :=
  negb (is_generic font) && negb (mem font system_fonts).

Definition is_fallback (font : string) : bool :=
  negb (is_generic font) && mem font system_fonts.

(** The elements of [l] without repetition, in the order of first occurrence. *)
Fixpoint distinct (l : list string) : list string :=
  match l with
  | [] => []
  | x :: rest => x :: filter (fun y => negb (String.eqb y x)) (distinct rest)
  end.

(** [cnt[k]]: the count recorded for [k], 0 when [k] is not a key. *)
Fixpoint get_count (k : string) (cnt : counter) : nat :=
  match cnt with
  | [] => 0%nat
  | (k', n) :: rest => if String.eqb k' k then n else get_count k rest
  end.

Definition not_excluded (c : string) : bool := negb (mem c excluded_colors).

(** Every character of [s] is an ASCII character, a code point below 128. *)
Definition is_ascii_text (s : string) : bool :=
  forallb_string (fun c => (code c <? 128)%nat) s.

(** No character of [s] is one of the letters [a] to [z].  On an ASCII text
    these are all the lower-case letters; beyond ASCII [str.upper] and
    [str.islower] know more letters, which this predicate does not see. *)
Definition no_lower (s : string) : bool := forallb_string (fun c => negb (is_lower c)) s.

(** Every character of [s] is ['#']. *)
Definition all_hash (s : string) : bool := forallb_string (fun c => Ascii.eqb c "#") s.

(** Every character of [s] is white space. *)
Definition all_space (s : string) : bool := forallb_string is_space s.

(** The 256 characters. *)
Definition all_ascii : list ascii := map ascii_of_nat (seq 0 256).

(** What [int(., 16)] returns on a text of at most two characters. *)
Definition short_int_ok (s : string) : bool :=
  match int_hex s with
  | Some v => (-15 <=? v)%Z && (v <=? 255)%Z
  | None => true
  end.

(** Two upper-case hexadecimal digits are read as a byte. *)
Definition byte_pair_ok (a b : ascii) : bool :=
  if is_upper_hex_digit a && is_upper_hex_digit b then
    match int_hex (String a (String b EmptyString)) with
    | Some v => (0 <=? v)%Z && (v <=? 255)%Z
    | None => false
    end
  else true.

(** An RGB triple of bytes, as [ColorThief.get_palette] returns them. *)
Definition byte_triple (rgb : Z * Z * Z) : bool :=
  let '(r, g, b) := rgb in
  ((0 <=? r) && (r <=? 255) && ((0 <=? g) && (g <=? 255))
   && ((0 <=? b) && (b <=? 255)))%Z.

(** The float test of the swatch label agrees with the integer test at [n]. *)
Definition brightness_ok (n : Z) : bool :=
  Bool.eqb (float_of_Z n / 1000 <? 128)%float (n <? 128000)%Z.

(** [brightness_ok] at [n], [n + 1], ..., [n + fuel - 1]. *)
Fixpoint all_from (fuel : nat) (n : Z) : bool :=
  match fuel with
  | O => true
  | S fuel' => brightness_ok n && all_from fuel' (n + 1)
  end.

(** * Properties *)

(** ** Fonts *)

Section FontFacts.

Lemma firstn_length_le {A : Type} (n : nat) (l : list A) :
  (List.length (firstn n l) <= n)%nat.
Proof.
  revert l; induction n as [|n IH]; intros [|x l]; simpl; auto with arith.
Qed.

Lemma preferred_fonts_short (b : FontBuckets) :
  (List.length (preferred_fonts b) <= 2)%nat.
Proof.
  unfold preferred_fonts; destruct (custom_fonts b); apply firstn_length_le.
Qed.

Lemma pad_to_two (l : list string) :
  List.length (firstn 2 (l ++ padding_fonts)) = 2%nat.
Proof.
  destruct l as [|a [|b l]]; reflexivity.
Qed.

(** A font whose lower-case form is a generic keyword leaves the buckets alone. *)
Lemma classify_font_generic (b : FontBuckets) (font : string) :
  mem (lower font) generic_fonts = true -> classify_font b font = b.
Proof.
  intros H; unfold classify_font; rewrite H; reflexivity.
Qed.

Lemma classify_font_custom (b : FontBuckets) (font : string) :
  mem (lower font) generic_fonts = false ->
  mem font system_fonts = false ->
  classify_font b font = mkBuckets (custom_fonts b ++ [font]) (fallback_fonts b).
Proof.
  intros Hg Hs; unfold classify_font; rewrite Hg, Hs; reflexivity.
Qed.

End FontFacts.

(** The loop as two filters, and the selection written with them. *)

Section FontSelection.

#[local] Open Scope list_scope.

Lemma classify_font_cases (b : FontBuckets) (font : string) :
  classify_font b font
  = mkBuckets (custom_fonts b ++ (if is_custom font then [font] else []))
              (fallback_fonts b ++ (if is_fallback font then [font] else [])).
Proof.
  unfold classify_font, is_custom, is_fallback, is_generic.
  destruct b as [custom fallback].
  destruct (mem (lower font) generic_fonts); destruct (mem font system_fonts);
    cbn [negb andb custom_fonts fallback_fonts]; rewrite ?app_nil_r; reflexivity.
Qed.

Lemma fold_classify_font (l : list string) (b : FontBuckets) :
  fold_left classify_font l b
  = mkBuckets (custom_fonts b ++ filter is_custom l)
              (fallback_fonts b ++ filter is_fallback l).
Proof.
  revert b; induction l as [|font rest IH]; intros b; simpl.
  - rewrite !app_nil_r. destruct b; reflexivity.
  - rewrite IH, classify_font_cases; simpl.
    destruct (is_custom font), (is_fallback font); simpl;
      rewrite <- ?app_assoc, ?app_nil_r; reflexivity.
Qed.

Lemma classify_fonts_filter (l : list string) :
  classify_fonts l = mkBuckets (filter is_custom l) (filter is_fallback l).
Proof.
  unfold classify_fonts. rewrite fold_classify_font. reflexivity.
Qed.

(** The selection written with the two sub-lists of the input. *)
Lemma process_fonts_selection (l : list string) :
  _process_fonts l
  = firstn 2 ((match filter is_custom l with
               | [] => filter is_fallback l
               | _ :: _ => filter is_custom l
               end) ++ ["Helvetica"; "Arial"]).
Proof.
  unfold _process_fonts, preferred_fonts. rewrite classify_fonts_filter; simpl.
  destruct (filter is_custom l) as [|c1 [|c2 cs]]; simpl; try reflexivity.
  destruct (filter is_fallback l) as [|f1 [|f2 fs]]; reflexivity.
Qed.

Lemma filter_custom_spec (l : list string) (f : string) :
  In f (filter is_custom l) -> In f l /\ is_generic f = false.
Proof.
  intros H; apply filter_In in H; destruct H as [H1 H2]. split; [exact H1|].
  unfold is_custom in H2. apply andb_true_iff in H2; destruct H2 as [H2 _].
  now apply negb_true_iff.
Qed.

Lemma filter_fallback_spec (l : list string) (f : string) :
  In f (filter is_fallback l) -> In f l /\ is_generic f = false.
Proof.
  intros H; apply filter_In in H; destruct H as [H1 H2]. split; [exact H1|].
  unfold is_fallback in H2. apply andb_true_iff in H2; destruct H2 as [H2 _].
  now apply negb_true_iff.
Qed.

End FontSelection.

(** C8. For every list of font-family strings, the empty one included,
    [_process_fonts] returns a list of exactly two font names. *)
Theorem process_fonts_returns_two (font_list : list string) :
  List.length (_process_fonts font_list) = 2%nat.
Proof.
  unfold _process_fonts.
  destruct (List.length (preferred_fonts (classify_fonts font_list)) <? 2)%nat eqn:E.
  - apply pad_to_two.
  - apply Nat.ltb_ge in E.
    pose proof (preferred_fonts_short (classify_fonts font_list)); lia.
Qed.

(** C2 as stated fails on the code: on [["Inter"; "Arial"; "sans-serif"; "Arial"]]
    the fallback bucket is not [["Arial"]] and the selection is not
    [["Inter"; "Arial"]]. *)
Lemma scenario_fonts_not_inter_arial :
  ~ (classify_fonts ["Inter"; "Arial"; "sans-serif"; "Arial"] = mkBuckets ["Inter"] ["Arial"]
     /\ _process_fonts ["Inter"; "Arial"; "sans-serif"; "Arial"] = ["Inter"; "Arial"]).
Proof.
  intros [_ H]; vm_compute in H; discriminate H.
Qed.

(** C2, amended. On [["Inter"; "Arial"; "sans-serif"; "Arial"]] the generic
    keyword is skipped, the custom bucket is [["Inter"]], the fallback bucket
    keeps both occurrences of Arial, and since a custom font exists only the
    custom bucket is used and padded: the selection is [["Inter"; "Helvetica"]]. *)
Theorem scenario_fonts_inter_helvetica :
  classify_fonts ["Inter"; "Arial"; "sans-serif"; "Arial"]
    = mkBuckets ["Inter"] ["Arial"; "Arial"]
  /\ classify_font (mkBuckets ["Inter"] ["Arial"]) "sans-serif" = mkBuckets ["Inter"] ["Arial"]
  /\ _process_fonts ["Inter"; "Arial"; "sans-serif"; "Arial"] = ["Inter"; "Helvetica"].
Proof.
  repeat split; reflexivity.
Qed.

(** C10. Generic keywords are matched on the lower-cased name: a font whose
    lower-case form is a generic keyword leaves the buckets alone and, wherever
    it stands in the input, [_process_fonts] returns what it returns without
    it.  The system set is matched on the exact spelling: a non-generic font
    spelled exactly as a system font goes to the fallback bucket, and is
    ignored as soon as the fonts before it hold a custom font; a font that is
    neither generic in lower case nor literally in the system set goes to the
    custom bucket, classifying it alone returns it followed by Helvetica, and
    so does classifying it after any fonts that hold no custom font, system
    fonts included. *)
Theorem font_matching_case (font : string) (b : FontBuckets) (before after : list string) :
  (mem (lower font) generic_fonts = true ->
   classify_font b font = b
   /\ _process_fonts (before ++ font :: after) = _process_fonts (before ++ after))
  /\ (mem (lower font) generic_fonts = false ->
      mem font system_fonts = true ->
      classify_font b font = mkBuckets (custom_fonts b) (fallback_fonts b ++ [font])
      /\ classify_fonts [font] = mkBuckets [] [font]
      /\ (custom_fonts (classify_fonts before) <> [] ->
          _process_fonts (before ++ [font]) = _process_fonts before))
  /\ (mem (lower font) generic_fonts = false ->
      mem font system_fonts = false ->
      classify_font b font = mkBuckets (custom_fonts b ++ [font]) (fallback_fonts b)
      /\ classify_fonts [font] = mkBuckets [font] []
      /\ _process_fonts [font] = [font; "Helvetica"]
      /\ (custom_fonts (classify_fonts before) = [] ->
          _process_fonts (before ++ [font]) = [font; "Helvetica"])).
Proof.
  split; [|split].
  - intros Hg. split; [now apply classify_font_generic|].
    assert (Hc : is_custom font = false)
      by (unfold is_custom, is_generic; rewrite Hg; reflexivity).
    assert (Hf : is_fallback font = false)
      by (unfold is_fallback, is_generic; rewrite Hg; reflexivity).
    rewrite !process_fonts_selection, !filter_app.
    cbn [filter]. rewrite Hc, Hf. reflexivity.
  - intros Hg Hs.
    assert (Hc : is_custom font = false)
      by (unfold is_custom, is_generic; rewrite Hg, Hs; reflexivity).
    assert (Hf : is_fallback font = true)
      by (unfold is_fallback, is_generic; rewrite Hg, Hs; reflexivity).
    split; [unfold classify_font; rewrite Hg, Hs; reflexivity|].
    split.
    + rewrite classify_fonts_filter. cbn [filter]. rewrite Hc, Hf. reflexivity.
    + rewrite classify_fonts_filter. cbn [custom_fonts]. intros Hne.
      rewrite !process_fonts_selection, !filter_app.
      cbn [filter]. rewrite Hc, Hf, app_nil_r.
      destruct (filter is_custom before) as [|c cs]; [contradiction|reflexivity].
  - intros Hg Hs.
    assert (Hc : is_custom font = true)
      by (unfold is_custom, is_generic; rewrite Hg, Hs; reflexivity).
    split; [now apply classify_font_custom|].
    assert (E : classify_fonts [font] = mkBuckets [font] []).
    { unfold classify_fonts; simpl. now rewrite classify_font_custom. }
    split; [exact E|].
    split; [unfold _process_fonts; rewrite E; reflexivity|].
    rewrite classify_fonts_filter. cbn [custom_fonts]. intros Hnil.
    rewrite process_fonts_selection, filter_app, Hnil.
    cbn [filter app]. rewrite Hc. reflexivity.
Qed.

(** C10 at ["arial"], ["Arial"] and ["SANS-SERIF"].  Lower-case [arial] is not
    a generic keyword and is not spelled as the system font [Arial]: it is a
    custom font, alone it gives [["arial"; "Helvetica"]], and after the system
    font [Arial] it still gives [["arial"; "Helvetica"]].  [Arial] itself is a
    fallback font and is ignored after the custom font [Inter].  The
    upper-case generic keyword [SANS-SERIF] is skipped between [Inter] and
    [Roboto]. *)
Lemma font_matching_case_arial :
  (mem (lower "arial") generic_fonts = false /\ mem "arial" system_fonts = false)
  /\ mem "Arial" system_fonts = true
  /\ _process_fonts ["arial"] = ["arial"; "Helvetica"]
  /\ _process_fonts (["Arial"] ++ ["arial"]) = ["arial"; "Helvetica"]
  /\ (classify_fonts ["Arial"] = mkBuckets [] ["Arial"]
      /\ _process_fonts (["Inter"] ++ ["Arial"]) = _process_fonts ["Inter"])
  /\ (mem (lower "SANS-SERIF") generic_fonts = true
      /\ classify_font (mkBuckets [] []) "SANS-SERIF" = mkBuckets [] []
      /\ _process_fonts (["Inter"] ++ "SANS-SERIF" :: ["Roboto"])
         = _process_fonts (["Inter"] ++ ["Roboto"])).
Proof.
  pose proof (proj2 (proj2 (font_matching_case "arial" (mkBuckets [] []) ["Arial"] []))
                eq_refl eq_refl) as [_ [_ [A1 A2]]].
  pose proof (proj1 (proj2 (font_matching_case "Arial" (mkBuckets [] []) ["Inter"] []))
                eq_refl eq_refl) as [_ [S1 S2]].
  pose proof (proj1 (font_matching_case "SANS-SERIF" (mkBuckets [] []) ["Inter"] ["Roboto"])
                eq_refl) as [G1 G2].
  refine (conj (conj eq_refl eq_refl)
            (conj eq_refl (conj A1 (conj (A2 eq_refl) (conj (conj S1 _) (conj eq_refl (conj G1 G2))))))).
  apply S2. discriminate.
Defined.

(** ** Colours: behaviour on concrete inputs *)

(** C1. On the observations [#111111, #222222, #222222] the counter
    records that [#222222] occurs twice and [#111111] once, yet the candidate
    list keeps the order of first occurrence and the primary colour is
    [#111111]: the counts are never used to order the candidates. *)
Theorem most_common_keeps_first_seen_order
  (name_to_hex : string -> option string) (fpow : float -> float -> float) :
  let colors := [("textColors", ["#111111"; "#222222"; "#222222"])] in
  Counter (all_colors name_to_hex colors) = [("#111111", 1%nat); ("#222222", 2%nat)]
  /\ occurrences "#222222" (all_colors name_to_hex colors) = 2%nat
  /\ occurrences "#111111" (all_colors name_to_hex colors) = 1%nat
  /\ most_common name_to_hex colors = ["#111111"; "#222222"]
  /\ primaryColor (_process_colors name_to_hex fpow colors) = "#111111".
Proof.
  repeat split; vm_compute; reflexivity.
Qed.

(** C3 as stated fails on the code: a three-digit hex literal is passed through
    upper-cased (4 characters), and an [rgb] channel above 255 is written with
    three hexadecimal digits (8 characters). *)
Lemma convert_to_hex_not_always_normalized :
  (forall name_to_hex, _convert_to_hex name_to_hex "#abc" = Some "#ABC")
  /\ is_normalized_color "#ABC" = false
  /\ (forall name_to_hex, _convert_to_hex name_to_hex "rgb(300, 0, 0)" = Some "#12C0000")
  /\ is_normalized_color "#12C0000" = false.
Proof.
  repeat split; intros; vm_compute; reflexivity.
Qed.

(** C7 as stated fails on the code: ["#0A0A0A0"] has seven digits, so it is
    not a well-formed six-digit colour, yet its first six digits are read as
    the colour (10, 10, 10) and the ratio against black is not 1.0.  Both
    colours are dark enough for the linear branch, so the power function is
    not involved. *)
Lemma contrast_ratio_malformed_not_one :
  is_hex6_color "#0A0A0A0" = false
  /\ hex_to_rgb "#0A0A0A0" = Some (10, 10, 10)%Z
  /\ (forall fpow, _get_contrast_ratio fpow "#0A0A0A0" "#000000" <> 1%float).
Proof.
  repeat split.
  intros fpow H.
  apply (f_equal (fun x => PrimFloat.ltb 1 x)) in H.
  vm_compute in H. discriminate H.
Qed.

(** ** Colours: where the role colours come from *)

Section Provenance.

Variable name_to_hex : string -> option string.
Variable fpow : float -> float -> float.

Lemma counter_add_keys (x k : string) (cnt : counter) :
  In k (map fst (counter_add x cnt)) -> k = x \/ In k (map fst cnt).
Proof.
  induction cnt as [|[k0 n0] rest IH]; simpl.
  - intros [H|[]]; auto.
  - destruct (String.eqb k0 x); simpl; intros [H|H]; auto.
    destruct (IH H); auto.
Qed.

Lemma fold_counter_keys (l : list string) (acc : counter) (k : string) :
  In k (map fst (fold_left (fun cnt x => counter_add x cnt) l acc)) ->
  In k l \/ In k (map fst acc).
Proof.
  revert acc; induction l as [|x l IH]; simpl; intros acc H; auto.
  destruct (IH _ H) as [H1|H1]; auto.
  destruct (counter_add_keys _ _ _ H1); subst; auto.
Qed.

Lemma Counter_keys (l : list string) (k : string) :
  In k (map fst (Counter l)) -> In k l.
Proof.
  intros H; destruct (fold_counter_keys _ _ _ H) as [H1|[]]; exact H1.
Qed.

Lemma in_firstn {A : Type} (n : nat) (l : list A) (x : A) :
  In x (firstn n l) -> In x l.
Proof.
  revert l; induction n as [|n IH]; intros [|y l]; simpl; try tauto.
  intros [H|H]; auto.
Qed.

Lemma filtered_colors_keys (cnt : counter) (k : string) :
  In k (map fst (filtered_colors cnt)) -> In k (map fst cnt).
Proof.
  unfold filtered_colors; rewrite !in_map_iff.
  intros [it [E H]]; apply filter_In in H; exists it; tauto.
Qed.

Lemma most_common_In (colors : list (string * list string)) (c : string) :
  In c (most_common name_to_hex colors) ->
  c = "#333333" \/ In c (all_colors name_to_hex colors).
Proof.
  unfold most_common.
  destruct (filtered_colors (Counter (all_colors name_to_hex colors))) as [|it rest] eqn:E.
  - intros [H|[]]; auto.
  - intros H; right. apply in_firstn in H. rewrite <- E in H.
    apply Counter_keys, filtered_colors_keys, H.
Qed.

Lemma hex_colors_of_In (color_list : list string) (c : string) :
  In c (hex_colors_of name_to_hex color_list) ->
  exists raw, In raw color_list /\ _convert_to_hex name_to_hex raw = Some c.
Proof.
  unfold hex_colors_of; rewrite in_flat_map; intros [raw [Hin H]].
  exists raw; split; [exact Hin|].
  destruct (_convert_to_hex name_to_hex raw) as [h|]; [|destruct H].
  destruct (truthy (Some h)); simpl in H; [|tauto].
  destruct H as [H|H]; [now subst|tauto].
Qed.

Lemma all_colors_In (colors : list (string * list string)) (c : string) :
  In c (all_colors name_to_hex colors) -> normalized_input name_to_hex colors c.
Proof.
  unfold all_colors; rewrite in_flat_map; intros [[key color_list] [Hin H]].
  destruct (hex_colors_of_In _ _ H) as [raw [Hraw E]].
  exists key, color_list, raw; auto.
Qed.

Lemma max_by_count_In (items : counter) (best : string * nat) :
  In (max_by_count best items) (best :: items).
Proof.
  revert best; induction items as [|it rest IH]; simpl; intros best; auto.
  destruct (snd best <? snd it)%nat.
  - destruct (IH it) as [H|H]; auto.
  - destruct (IH best) as [H|H]; auto.
Qed.

Lemma without_white_black_In (color_list : list (option string)) (c : string) :
  In c (without_white_black color_list) -> In (Some c) color_list.
Proof.
  induction color_list as [|[h|] rest IH]; intros H.
  - destruct H.
  - simpl in H.
    match type of H with In _ (if ?b then _ else _) => destruct b end.
    + destruct H as [H|H]; [left; now subst|right; auto].
    + right; auto.
  - right; auto.
Qed.

Lemma get_most_common_color_In (color_list : list (option string)) (default : string) :
  _get_most_common_color color_list default = default
  \/ In (Some (_get_most_common_color color_list default)) color_list.
Proof.
  unfold _get_most_common_color.
  destruct (without_white_black color_list) as [|x rest] eqn:E; auto.
  rewrite <- E.
  unfold most_common_1.
  destruct (Counter (without_white_black color_list)) as [|it items] eqn:EC; auto.
  destruct (max_by_count it items) as [c n] eqn:EM.
  right. apply without_white_black_In, Counter_keys.
  rewrite EC. apply in_map_iff. exists (c, n); split; [reflexivity|].
  rewrite <- EM; apply max_by_count_In.
Qed.

Lemma dict_get_In (key : string) (d : list (string * list string)) (raw : string) :
  In raw (dict_get key d) -> exists k color_list, In (k, color_list) d /\ In raw color_list.
Proof.
  induction d as [|[k v] rest IH]; simpl; [intros []|].
  destruct (String.eqb k key).
  - intros H; exists k, v; auto.
  - intros H; destruct (IH H) as [k' [v' [H1 H2]]]; exists k', v'; auto.
Qed.

Lemma category_color_provenance (key default : string)
  (colors : list (string * list string)) :
  let c := _get_most_common_color (map (_convert_to_hex name_to_hex) (dict_get key colors))
             default in
  c = default \/ normalized_input name_to_hex colors c.
Proof.
  intros c.
  destruct (get_most_common_color_In
              (map (_convert_to_hex name_to_hex) (dict_get key colors)) default) as [H|H];
    [left; exact H|right].
  apply in_map_iff in H. destruct H as [raw [E Hin]].
  destruct (dict_get_In _ _ _ Hin) as [k [v [H1 H2]]].
  exists k, v, raw; auto.
Qed.

Lemma second_or_default_In (l : list string) :
  second_or_default l = "#666666" \/ In (second_or_default l) l.
Proof.
  unfold second_or_default.
  destruct l as [|a [|b l]]; simpl; auto.
Qed.

End Provenance.

(** C9. Each of the four role colours returned by [_process_colors] is
    one of the constants [#333333], [#666666], [#FFFFFF], [#0066CC] or the
    normalisation of one of the strings of the input map. *)
Theorem role_colors_provenance
  (name_to_hex : string -> option string) (fpow : float -> float -> float)
  (colors : list (string * list string)) :
  let roles := _process_colors name_to_hex fpow colors in
  forall c,
    In c [primaryColor roles; secondaryColor roles; backgroundColor roles; linkColor roles] ->
    In c fixed_colors \/ normalized_input name_to_hex colors c.
Proof.
  intros roles c Hc.
  assert (Hbg : In (backgroundColor roles) fixed_colors
                \/ normalized_input name_to_hex colors (backgroundColor roles)).
  { destruct (category_color_provenance name_to_hex "backgroundColors" "#FFFFFF" colors)
      as [H|H]; [left|right; exact H].
    simpl in H; simpl; unfold background_color; rewrite H; simpl; auto. }
  assert (Hlink : In (linkColor roles) fixed_colors
                  \/ normalized_input name_to_hex colors (linkColor roles)).
  { destruct (category_color_provenance name_to_hex "linkColors" "#0066CC" colors)
      as [H|H]; [left|right; exact H].
    simpl in H; simpl; unfold link_color; rewrite H; simpl; auto. }
  assert (Hmc : forall x, In x (most_common name_to_hex colors) ->
                In x fixed_colors \/ normalized_input name_to_hex colors x).
  { intros x Hx. destruct (most_common_In _ _ _ Hx) as [H|H].
    - left; subst; simpl; auto.
    - right; now apply all_colors_In. }
  assert (Hprim : In (primaryColor roles) fixed_colors
                  \/ normalized_input name_to_hex colors (primaryColor roles)).
  { simpl. destruct (most_common name_to_hex colors) as [|x l] eqn:E.
    - left; simpl; auto.
    - apply Hmc; simpl; auto. }
  assert (Hsec : In (secondaryColor roles) fixed_colors
                 \/ normalized_input name_to_hex colors (secondaryColor roles)).
  { simpl.
    destruct (PrimFloat.ltb _ 3).
    - left. destruct (negb _); simpl; auto.
    - destruct (second_or_default_In (most_common name_to_hex colors)) as [H|H].
      + left; rewrite H; simpl; auto.
      + now apply Hmc. }
  simpl in Hc.
  destruct Hc as [H|[H|[H|[H|[]]]]]; subst c; assumption.
Qed.

(** C9 on the scenario of a red text colour, a white background and a blue
    link: the primary colour [#FF0000] is the normalisation of an input. *)
Lemma role_colors_provenance_example :
  In "#FF0000" fixed_colors
  \/ normalized_input no_names
       [("textColors", ["rgb(255,0,0)"; "rgb(255,0,0)"]);
        ("backgroundColors", ["rgb(255,255,255)"]); ("linkColors", ["#0000FF"])]
       "#FF0000".
Proof.
  apply (role_colors_provenance no_names pow_ref
           [("textColors", ["rgb(255,0,0)"; "rgb(255,0,0)"]);
            ("backgroundColors", ["rgb(255,255,255)"]); ("linkColors", ["#0000FF"])]
           "#FF0000").
  vm_compute. left; reflexivity.
Defined.

(** ** Colours: the legibility check and the defaults *)

Section RoleSelection.

Variable name_to_hex : string -> option string.
Variable fpow : float -> float -> float.

Lemma three_spec : Prim2SF 3 = S754_finite false 6755399441055744 (-51).
Proof. vm_compute. reflexivity. Qed.

Lemma leb_ltb_comparisons (ce cm : comparison) :
  match match CompOpp ce with
        | Eq => CompOpp cm
        | Lt => Lt
        | Gt => Gt
        end
  with
  | Gt => false
  | _ => true
  end = true ->
  match match ce with
        | Eq => cm
        | Lt => Lt
        | Gt => Gt
        end
  with
  | Lt => true
  | _ => false
  end = false.
Proof.
  destruct ce, cm; simpl; intros H; first [reflexivity | discriminate H].
Qed.

Lemma SF_three_leb_not_ltb (y : spec_float) :
  SFleb (S754_finite false 6755399441055744 (-51)) y = true ->
  SFltb y (S754_finite false 6755399441055744 (-51)) = false.
Proof.
  destruct y as [s|s| |s m e].
  - intros H; discriminate H.
  - destruct s; intros H; [discriminate H|reflexivity].
  - intros H; discriminate H.
  - destruct s; [intros H; discriminate H|].
    unfold SFleb, SFltb, SFcompare.
    rewrite (Z.compare_antisym e (-51)).
    assert (A : Pos.compare_cont Eq 6755399441055744 m
                = CompOpp (Pos.compare_cont Eq m 6755399441055744))
      by (symmetry; exact (Pos.compare_cont_antisym m 6755399441055744 Eq)).
    rewrite A.
    apply leb_ltb_comparisons.
Qed.

(** A float that is at least 3 is not below 3 (a NaN is neither). *)
Lemma three_leb_not_ltb (x : float) :
  PrimFloat.leb 3 x = true -> PrimFloat.ltb x 3 = false.
Proof.
  rewrite leb_spec, ltb_spec, three_spec. apply SF_three_leb_not_ltb.
Qed.

Lemma hex_colors_of_unparseable (color_list : list string) :
  (forall raw, In raw color_list -> _convert_to_hex name_to_hex raw = None) ->
  hex_colors_of name_to_hex color_list = [].
Proof.
  induction color_list as [|raw rest IH]; intros H; [reflexivity|].
  unfold hex_colors_of in *; simpl.
  rewrite (H raw (or_introl eq_refl)); simpl.
  apply IH; intros r Hr; apply H; right; exact Hr.
Qed.

Lemma all_colors_unparseable (colors : list (string * list string)) :
  all_unparseable name_to_hex colors -> all_colors name_to_hex colors = [].
Proof.
  induction colors as [|[key color_list] rest IH]; intros H; [reflexivity|].
  unfold all_colors in *; simpl.
  rewrite hex_colors_of_unparseable.
  - apply IH; intros k l r H1 H2; apply (H k l r); [right; exact H1|exact H2].
  - intros raw Hraw; apply (H key color_list raw); [left; reflexivity|exact Hraw].
Qed.

Lemma without_white_black_all_none (color_list : list string) :
  (forall raw, In raw color_list -> _convert_to_hex name_to_hex raw = None) ->
  without_white_black (map (_convert_to_hex name_to_hex) color_list) = [].
Proof.
  induction color_list as [|raw rest IH]; intros H; [reflexivity|].
  simpl. rewrite (H raw (or_introl eq_refl)).
  apply IH; intros r Hr; apply H; right; exact Hr.
Qed.

Lemma category_color_unparseable (key default : string)
  (colors : list (string * list string)) :
  all_unparseable name_to_hex colors ->
  _get_most_common_color (map (_convert_to_hex name_to_hex) (dict_get key colors)) default
  = default.
Proof.
  intros H. unfold _get_most_common_color.
  rewrite without_white_black_all_none; [reflexivity|].
  intros raw Hraw. destruct (dict_get_In _ _ _ Hraw) as [k [l [H1 H2]]].
  exact (H k l raw H1 H2).
Qed.

End RoleSelection.

(** C4. With [chosen] the secondary colour taken from the candidate list
    (its second entry, or [#666666]) and [bg] the background colour: when the
    contrast ratio of [chosen] against [bg] is below 3 the secondary colour is
    [#333333], unless [bg] is [#333333], in which case it is [#FFFFFF]; when
    the ratio is at least 3 the secondary colour is [chosen]. *)
Theorem secondary_color_legibility
  (name_to_hex : string -> option string) (fpow : float -> float -> float)
  (colors : list (string * list string)) :
  let roles := _process_colors name_to_hex fpow colors in
  let chosen := chosen_secondary name_to_hex colors in
  let ratio := _get_contrast_ratio fpow chosen (backgroundColor roles) in
  (PrimFloat.ltb ratio 3 = true -> backgroundColor roles <> "#333333" ->
   secondaryColor roles = "#333333")
  /\ (PrimFloat.ltb ratio 3 = true -> backgroundColor roles = "#333333" ->
      secondaryColor roles = "#FFFFFF")
  /\ (PrimFloat.leb 3 ratio = true -> secondaryColor roles = chosen).
Proof.
  cbv zeta. unfold chosen_secondary. simpl.
  repeat split.
  - intros Hlt Hbg. rewrite Hlt.
    apply String.eqb_neq in Hbg. rewrite Hbg. reflexivity.
  - intros Hlt Hbg. rewrite Hlt, Hbg. reflexivity.
  - intros Hge. rewrite (three_leb_not_ltb _ Hge). reflexivity.
Qed.

(** C5. When every observation is rejected by [_convert_to_hex] (in
    particular when the map or its lists are empty), and the platform's power
    function gives grey [#666666] on white a contrast ratio that is not below
    3 (its exact value is about 5.74), [_process_colors] returns primary
    [#333333], secondary [#666666], background [#FFFFFF], link [#0066CC]: the
    value of its own [except] clause and the colours of
    [_create_error_result]. *)
Theorem unparseable_observations_give_defaults
  (name_to_hex : string -> option string) (fpow : float -> float -> float)
  (colors : list (string * list string)) :
  all_unparseable name_to_hex colors ->
  PrimFloat.ltb (_get_contrast_ratio fpow "#666666" "#FFFFFF") 3 = false ->
  _process_colors name_to_hex fpow colors
    = mkBrandColors "#333333" "#666666" "#FFFFFF" "#0066CC"
  /\ _process_colors name_to_hex fpow colors = error_colors
  /\ (forall method_name error_message,
        _process_colors name_to_hex fpow colors
        = result_colors (_create_error_result method_name error_message)).
Proof.
  intros Hun Hpow.
  assert (E : _process_colors name_to_hex fpow colors
              = mkBrandColors "#333333" "#666666" "#FFFFFF" "#0066CC").
  { unfold _process_colors, most_common, background_color, link_color.
    rewrite (all_colors_unparseable _ _ Hun).
    rewrite !(category_color_unparseable _ _ _ _ Hun).
    simpl. unfold second_or_default; simpl.
    rewrite Hpow. reflexivity. }
  repeat split; try exact E. intros; exact E.
Qed.

(** C4 on three inputs, with [pow_ref] for the power function: a dark
    secondary on a dark background is replaced by [#333333]; on the background
    [#333333] it is replaced by [#FFFFFF]; blue on white (ratio about 8.59) is
    kept. *)
Lemma secondary_color_legibility_examples :
  secondaryColor (_process_colors no_names pow_ref
    [("textColors", ["#010101"; "#020202"]); ("backgroundColors", ["#050505"])]) = "#333333"
  /\ secondaryColor (_process_colors no_names pow_ref
    [("textColors", ["#010101"; "#020202"]); ("backgroundColors", ["#333333"])]) = "#FFFFFF"
  /\ secondaryColor (_process_colors no_names pow_ref
    [("textColors", ["rgb(255,0,0)"; "rgb(255,0,0)"]);
     ("backgroundColors", ["rgb(255,255,255)"]); ("linkColors", ["#0000FF"])]) = "#0000FF".
Proof.
  split; [|split].
  - apply (proj1 (secondary_color_legibility no_names pow_ref
      [("textColors", ["#010101"; "#020202"]); ("backgroundColors", ["#050505"])])).
    + vm_compute; reflexivity.
    + vm_compute; discriminate.
  - apply (proj1 (proj2 (secondary_color_legibility no_names pow_ref
      [("textColors", ["#010101"; "#020202"]); ("backgroundColors", ["#333333"])]))).
    + vm_compute; reflexivity.
    + vm_compute; reflexivity.
  - apply (proj2 (proj2 (secondary_color_legibility no_names pow_ref
      [("textColors", ["rgb(255,0,0)"; "rgb(255,0,0)"]);
       ("backgroundColors", ["rgb(255,255,255)"]); ("linkColors", ["#0000FF"])]))).
    vm_compute; reflexivity.
Defined.

(** C5 on a map whose observations are all rejected, with [pow_ref] for the
    power function. *)
Lemma unparseable_observations_example :
  _process_colors no_names pow_ref
    [("textColors", ["transparent"; "currentcolor"]); ("backgroundColors", []);
     ("linkColors", ["inherit"])]
  = mkBrandColors "#333333" "#666666" "#FFFFFF" "#0066CC".
Proof.
  apply (unparseable_observations_give_defaults no_names pow_ref).
  - intros key color_list raw H1 H2.
    repeat (destruct H1 as [H1|H1];
            [injection H1 as <- <-;
             repeat (destruct H2 as [H2|H2]; [subst raw; reflexivity|]); destruct H2|]).
    destruct H1.
  - vm_compute; reflexivity.
Defined.

(** ** Colour normalisation *)

Section Scanning.

Lemma is_space_not_digit (c : ascii) : is_space c = true -> is_digit c = false.
Proof.
  destruct c as [[] [] [] [] [] [] [] []]; vm_compute; intros H;
    first [reflexivity | discriminate H].
Qed.

Lemma upper_hex_digit_of_hex (c : ascii) :
  is_hex_digit c = true -> is_upper_hex_digit (upper_char c) = true.
Proof.
  destruct c as [[] [] [] [] [] [] [] []]; vm_compute; intros H;
    first [reflexivity | discriminate H].
Qed.

Lemma upper_hex_digit_not_hash (c : ascii) :
  is_upper_hex_digit c = true -> Ascii.eqb c "#" = false.
Proof.
  destruct c as [[] [] [] [] [] [] [] []]; vm_compute; intros H;
    first [reflexivity | discriminate H].
Qed.

Lemma map_string_length (f : ascii -> ascii) (s : string) :
  String.length (map_string f s) = String.length s.
Proof.
  induction s as [|c t IH]; simpl; congruence.
Qed.

Lemma upper_hex_digits (s : string) :
  forallb_string is_hex_digit s = true ->
  forallb_string is_upper_hex_digit (upper s) = true.
Proof.
  induction s as [|c t IH]; simpl; [reflexivity|].
  intros H; apply andb_true_iff in H; destruct H as [Hc Ht].
  rewrite (upper_hex_digit_of_hex c Hc); simpl. apply IH, Ht.
Qed.

(** Upper-casing a six-digit colour of either case gives a NormalizedColor. *)
Lemma upper_hex6_normalized (s : string) :
  is_hex6_color s = true -> is_normalized_color (upper s) = true.
Proof.
  destruct s as [|c t]; [discriminate|].
  unfold is_hex6_color, is_normalized_color.
  destruct (Ascii.eqb_spec c "#") as [->|Hc].
  - intros H; apply andb_true_iff in H; destruct H as [Hl Hd].
    change (upper (String "#" t)) with (String "#" (upper t)).
    unfold upper at 1; rewrite map_string_length, Hl; simpl.
    apply upper_hex_digits, Hd.
  - intros H; exfalso; apply Hc.
    destruct c as [[] [] [] [] [] [] [] []]; first [reflexivity | discriminate H].
Qed.

Lemma rstrip_cons (c : ascii) (t : string) :
  is_space c = false -> rstrip (String c t) = String c (rstrip t).
Proof.
  intros H; simpl; rewrite H; destruct (rstrip t); reflexivity.
Qed.

(** Trailing whitespace holds no digit: [rstrip] does not change the runs. *)
Lemma findall_digits_rstrip (s : string) :
  findall_digits (rstrip s) = findall_digits s
  /\ starts_with_digit (rstrip s) = starts_with_digit s.
Proof.
  induction s as [|c t [IH1 IH2]]; [split; reflexivity|].
  simpl rstrip.
  destruct (rstrip t) as [|a t'] eqn:E.
  - simpl in IH1, IH2.
    destruct (is_space c) eqn:Hs.
    + pose proof (is_space_not_digit c Hs) as Hd.
      simpl; rewrite Hd, <- IH1; split; reflexivity.
    + simpl; rewrite <- IH1, <- IH2; split; reflexivity.
  - split; [|reflexivity].
    change (findall_digits (String c (String a t')))
      with (if is_digit c then
              if starts_with_digit (String a t') then
                match findall_digits (String a t') with
                | r :: rs => String c r :: rs
                | [] => [String c EmptyString]
                end
              else String c EmptyString :: findall_digits (String a t')
            else findall_digits (String a t')).
    rewrite IH1, IH2; reflexivity.
Qed.

Lemma findall_digits_skip (p s : string) :
  no_digit p = true -> findall_digits (p ++ s) = findall_digits s.
Proof.
  induction p as [|c t IH]; simpl; [reflexivity|].
  intros H; apply andb_true_iff in H; destruct H as [Hc Ht].
  apply negb_true_iff in Hc; rewrite Hc; apply IH, Ht.
Qed.

Lemma starts_with_digit_app (d s : string) :
  all_digit d = true -> d <> EmptyString -> starts_with_digit (d ++ s) = true.
Proof.
  destruct d as [|c t]; [congruence|]; simpl.
  intros H _; apply andb_true_iff in H; tauto.
Qed.

(** A run of digits followed by a non-digit is one match. *)
Lemma findall_digits_run (d s : string) :
  all_digit d = true -> d <> EmptyString -> starts_with_digit s = false ->
  findall_digits (d ++ s) = d :: findall_digits s.
Proof.
  induction d as [|c t IH]; [congruence|].
  intros Hd _ Hs. change (is_digit c && all_digit t = true) in Hd.
  apply andb_true_iff in Hd; destruct Hd as [Hc Ht].
  destruct t as [|c' t'].
  - simpl; rewrite Hc, Hs; reflexivity.
  - change (findall_digits (String c (String c' t') ++ s))
      with (if is_digit c then
              if starts_with_digit (String c' t' ++ s) then
                match findall_digits (String c' t' ++ s) with
                | r :: rs => String c r :: rs
                | [] => [String c EmptyString]
                end
              else String c EmptyString :: findall_digits (String c' t' ++ s)
            else findall_digits (String c' t' ++ s)).
    rewrite Hc, (starts_with_digit_app _ s Ht) by discriminate.
    rewrite (IH Ht) by (discriminate || exact Hs). reflexivity.
Qed.

Lemma separator_no_digit (sep : string) : separator sep = true -> no_digit sep = true.
Proof.
  destruct sep; [discriminate|]; intros H; exact H.
Qed.

Lemma separator_starts (sep s : string) :
  separator sep = true -> starts_with_digit (sep ++ s) = false.
Proof.
  destruct sep as [|c t]; [discriminate|]; simpl.
  intros H; apply andb_true_iff in H; destruct H as [Hc _].
  apply negb_true_iff, Hc.
Qed.

(** The three numbers of [pre d1 sep1 d2 sep2 d3 rest]. *)
Lemma findall_digits_three (pre d1 sep1 d2 sep2 d3 rest : string) :
  no_digit pre = true -> separator sep1 = true -> separator sep2 = true ->
  starts_with_digit rest = false ->
  all_digit d1 = true -> d1 <> EmptyString ->
  all_digit d2 = true -> d2 <> EmptyString ->
  all_digit d3 = true -> d3 <> EmptyString ->
  findall_digits (pre ++ d1 ++ sep1 ++ d2 ++ sep2 ++ d3 ++ rest)
  = d1 :: d2 :: d3 :: findall_digits rest.
Proof.
  intros Hp H1 H2 Hr Hd1 Hn1 Hd2 Hn2 Hd3 Hn3.
  rewrite (findall_digits_skip pre _ Hp).
  rewrite (findall_digits_run d1 _ Hd1 Hn1 (separator_starts sep1 _ H1)).
  rewrite (findall_digits_skip sep1 _ (separator_no_digit _ H1)).
  rewrite (findall_digits_run d2 _ Hd2 Hn2 (separator_starts sep2 _ H2)).
  rewrite (findall_digits_skip sep2 _ (separator_no_digit _ H2)).
  rewrite (findall_digits_run d3 _ Hd3 Hn3 Hr).
  reflexivity.
Qed.

End Scanning.

Section Channels.

Lemma channel_ok_table : forallb channel_ok (map Z.of_nat (seq 0 256)) = true.
Proof. vm_compute; reflexivity. Qed.

Lemma channel_ok_range (v : Z) : (0 <= v <= 255)%Z -> channel_ok v = true.
Proof.
  intros H. apply (proj1 (forallb_forall _ _) channel_ok_table).
  apply in_map_iff. exists (Z.to_nat v). split; [lia|].
  apply in_seq; lia.
Qed.

(** The decimal text of a channel is a non-empty run of digits read back by [int]. *)
Lemma decimal_channel (v : Z) :
  (0 <= v <= 255)%Z ->
  all_digit (decimal v) = true /\ decimal v <> EmptyString
  /\ int_dec (decimal v) = Some v.
Proof.
  intros H. pose proof (channel_ok_range v H) as C. unfold channel_ok in C.
  repeat (apply andb_true_iff in C; destruct C as [C ?]).
  split; [assumption|]. split.
  - destruct (decimal v); [discriminate|discriminate].
  - destruct (int_dec (decimal v)) as [v'|]; [|discriminate].
    f_equal; apply Z.eqb_eq; assumption.
Qed.

(** A channel is written as two upper-case hexadecimal digits that read back. *)
Lemma format_02X_channel (v : Z) :
  (0 <= v <= 255)%Z ->
  exists a b, format_02X v = String a (String b EmptyString)
              /\ is_upper_hex_digit a = true /\ is_upper_hex_digit b = true
              /\ int_hex (String a (String b EmptyString)) = Some v.
Proof.
  intros H. pose proof (channel_ok_range v H) as C. unfold channel_ok in C.
  apply andb_true_iff in C; destruct C as [_ C].
  destruct (format_02X v) as [|a [|b [|? ?]]]; try discriminate.
  exists a, b.
  repeat (apply andb_true_iff in C; destruct C as [C ?]).
  repeat split; try assumption.
  destruct (int_hex (String a (String b ""))) as [v'|]; [|discriminate].
  f_equal; apply Z.eqb_eq; assumption.
Qed.

Lemma fold_digits_nonneg (l : list ascii) (acc : Z) :
  (0 <= acc)%Z -> (0 <= fold_left (fun a c => a * 10 + digit_val c) l acc)%Z.
Proof.
  revert acc; induction l as [|c l IH]; simpl; intros acc H; [exact H|].
  apply IH. unfold digit_val. lia.
Qed.

Lemma int_dec_nonneg (s : string) (v : Z) : int_dec s = Some v -> (0 <= v)%Z.
Proof.
  unfold int_dec. destruct (int_max_str_digits <? String.length s)%nat; [discriminate|].
  intros H; injection H as <-. apply fold_digits_nonneg; lia.
Qed.

Lemma six_digits_normalized (a1 b1 a2 b2 a3 b3 : ascii) :
  is_upper_hex_digit a1 = true -> is_upper_hex_digit b1 = true ->
  is_upper_hex_digit a2 = true -> is_upper_hex_digit b2 = true ->
  is_upper_hex_digit a3 = true -> is_upper_hex_digit b3 = true ->
  is_normalized_color
    ("#" ++ String a1 (String b1 "") ++ String a2 (String b2 "") ++ String a3 (String b3 ""))
  = true.
Proof.
  intros H1 H2 H3 H4 H5 H6. simpl. rewrite H1, H2, H3, H4, H5, H6. reflexivity.
Qed.

(** The decoder of [_get_contrast_ratio] on six digits after the ['#']. *)
Lemma hex_to_rgb_six (a1 b1 a2 b2 a3 b3 : ascii) (r g b : Z) :
  Ascii.eqb a1 "#" = false ->
  int_hex (String a1 (String b1 "")) = Some r ->
  int_hex (String a2 (String b2 "")) = Some g ->
  int_hex (String a3 (String b3 "")) = Some b ->
  hex_to_rgb
    ("#" ++ String a1 (String b1 "") ++ String a2 (String b2 "") ++ String a3 (String b3 ""))
  = Some (r, g, b).
Proof.
  intros Ha Hr Hg Hb. unfold hex_to_rgb.
  change (lstrip_char "#" ("#" ++ String a1 (String b1 "") ++ String a2 (String b2 "")
                           ++ String a3 (String b3 "")))
    with (if Ascii.eqb a1 "#"
          then lstrip_char "#" (String b1 (String a2 (String b2 (String a3 (String b3 "")))))
          else String a1 (String b1 (String a2 (String b2 (String a3 (String b3 "")))))).
  rewrite Ha.
  change (slice 0 2 (String a1 (String b1 (String a2 (String b2 (String a3 (String b3 "")))))))
    with (String a1 (String b1 "")).
  change (slice 2 4 (String a1 (String b1 (String a2 (String b2 (String a3 (String b3 "")))))))
    with (String a2 (String b2 "")).
  change (slice 4 6 (String a1 (String b1 (String a2 (String b2 (String a3 (String b3 "")))))))
    with (String a3 (String b3 "")).
  rewrite Hr, Hg, Hb. reflexivity.
Qed.

End Channels.

#[local] Open Scope string_scope.

Section Normalisation.

Variable name_to_hex : string -> option string.

Lemma strip_rgb (x : string) : strip ("rgb" ++ x) = "rgb" ++ rstrip x.
Proof.
  unfold strip.
  change ("rgb" ++ x) with (String "r" (String "g" (String "b" x))).
  rewrite !rstrip_cons by reflexivity. reflexivity.
Qed.

(** The [rgb] branch when the text holds at least three numbers. *)
Lemma convert_rgb_numbers (x n0 n1 n2 : string) (more : list string) (r g b : Z) :
  findall_digits x = n0 :: n1 :: n2 :: more ->
  int_dec n0 = Some r -> int_dec n1 = Some g -> int_dec n2 = Some b ->
  _convert_to_hex name_to_hex ("rgb" ++ x)
  = Some ("#" ++ format_02X r ++ format_02X g ++ format_02X b).
Proof.
  intros Hf Hr Hg Hb.
  unfold _convert_to_hex, convert_to_hex_body. cbv zeta.
  rewrite strip_rgb.
  change (startswith "#" ("rgb" ++ rstrip x)) with false.
  change (startswith "rgb" ("rgb" ++ rstrip x)) with (String.prefix "" (rstrip x)).
  replace (String.prefix "" (rstrip x)) with true by (destruct (rstrip x); reflexivity).
  change (findall_digits ("rgb" ++ rstrip x)) with (findall_digits (rstrip x)).
  rewrite (proj1 (findall_digits_rstrip x)), Hf, Hr, Hg, Hb.
  reflexivity.
Qed.

End Normalisation.

Section NormalisationFacts.

Variable name_to_hex : string -> option string.

Lemma named_color_normalized (color hex : string) :
  (forall name h, name_to_hex name = Some h -> is_hex6_color h = true) ->
  named_color name_to_hex color = Some hex -> is_normalized_color hex = true.
Proof.
  intros Hnames. unfold named_color.
  destruct (name_to_hex color) as [h|] eqn:E; [|discriminate].
  intros H; injection H as <-.
  apply upper_hex6_normalized, (Hnames color h E).
Qed.

Lemma format_02X_three_normalized (r g b : Z) :
  (0 <= r <= 255)%Z -> (0 <= g <= 255)%Z -> (0 <= b <= 255)%Z ->
  is_normalized_color ("#" ++ format_02X r ++ format_02X g ++ format_02X b) = true
  /\ hex_to_rgb ("#" ++ format_02X r ++ format_02X g ++ format_02X b) = Some (r, g, b).
Proof.
  intros Hr Hg Hb.
  destruct (format_02X_channel r Hr) as [a1 [b1 [-> [A1 [B1 R]]]]].
  destruct (format_02X_channel g Hg) as [a2 [b2 [-> [A2 [B2 G]]]]].
  destruct (format_02X_channel b Hb) as [a3 [b3 [-> [A3 [B3 B]]]]].
  split.
  - now apply six_digits_normalized.
  - apply hex_to_rgb_six; try assumption. now apply upper_hex_digit_not_hash.
Qed.

End NormalisationFacts.

(** C6. For channels [r], [g], [b] between 0 and 255, a text made of
    [rgb], a digit-free opening (such as ["("] or ["a("]), the three decimal
    numbers separated by digit-free separators, and a remainder that does not
    start with a digit (such as [")"] or an alpha channel [", 0.5)"]) is
    normalised to ['#'] and six upper-case hexadecimal digits, seven
    characters, whose three two-digit channels decode to [(r, g, b)]. *)
Theorem rgb_text_normalizes
  (name_to_hex : string -> option string) (r g b : Z) (pre sep1 sep2 rest : string) :
  (0 <= r <= 255)%Z -> (0 <= g <= 255)%Z -> (0 <= b <= 255)%Z ->
  no_digit pre = true -> separator sep1 = true -> separator sep2 = true ->
  starts_with_digit rest = false ->
  let raw := ("rgb" ++ pre ++ decimal r ++ sep1 ++ decimal g ++ sep2 ++ decimal b ++ rest)%string in
  exists hex,
    _convert_to_hex name_to_hex raw = Some hex
    /\ String.length hex = 7%nat
    /\ is_normalized_color hex = true
    /\ hex_to_rgb hex = Some (r, g, b).
Proof.
  intros Hr Hg Hb Hpre Hs1 Hs2 Hrest raw.
  destruct (decimal_channel r Hr) as [Dr [Nr Ir]].
  destruct (decimal_channel g Hg) as [Dg [Ng Ig]].
  destruct (decimal_channel b Hb) as [Db [Nb Ib]].
  exists ("#" ++ format_02X r ++ format_02X g ++ format_02X b)%string.
  destruct (format_02X_three_normalized r g b Hr Hg Hb) as [Hn Hdec].
  split; [|split; [|split]]; try assumption.
  - unfold raw.
    apply (convert_rgb_numbers name_to_hex _ (decimal r) (decimal g) (decimal b)
             (findall_digits rest)); try assumption.
    now apply findall_digits_three.
  - destruct (format_02X_channel r Hr) as [a1 [b1 [-> _]]].
    destruct (format_02X_channel g Hg) as [a2 [b2 [-> _]]].
    destruct (format_02X_channel b Hb) as [a3 [b3 [-> _]]].
    reflexivity.
Qed.

(** C6 on [rgba(255, 0, 10, 0.5)] and on [rgb(51,102,204)]. *)
Lemma rgb_text_normalizes_examples :
  (exists hex, _convert_to_hex no_names "rgba(255, 0, 10, 0.5)" = Some hex
               /\ String.length hex = 7%nat
               /\ is_normalized_color hex = true
               /\ hex_to_rgb hex = Some (255, 0, 10)%Z)
  /\ (exists hex, _convert_to_hex no_names "rgb(51,102,204)" = Some hex
                  /\ String.length hex = 7%nat
                  /\ is_normalized_color hex = true
                  /\ hex_to_rgb hex = Some (51, 102, 204)%Z).
Proof.
  split.
  - apply (rgb_text_normalizes no_names 255 0 10 "a(" ", " ", " ", 0.5)");
      first [lia | reflexivity].
  - apply (rgb_text_normalizes no_names 51 102 204 "(" "," "," ")");
      first [lia | reflexivity].
Defined.

(** C3, amended. A present result of [_convert_to_hex] is a NormalizedColor
    (['#'] and six upper-case hexadecimal digits) provided the input is within
    the ranges the conversion does not check: a text starting with ['#'] is a
    six-digit colour, the first three numbers of an [rgb] text are at most
    255, and the name table returns six-digit colours. *)
Theorem convert_to_hex_normalized
  (name_to_hex : string -> option string) (raw hex : string) :
  (forall name h, name_to_hex name = Some h -> is_hex6_color h = true) ->
  (startswith "#" (strip raw) = true -> is_hex6_color (strip raw) = true) ->
  (startswith "rgb" (strip raw) = true -> channels_in_range (strip raw) = true) ->
  _convert_to_hex name_to_hex raw = Some hex ->
  is_normalized_color hex = true /\ String.length hex = 7%nat.
Proof.
  intros Hnames Hhex Hrgb Hconv.
  assert (N : is_normalized_color hex = true).
  { unfold _convert_to_hex, convert_to_hex_body in Hconv.
    destruct (startswith "#" (strip raw)) eqn:E1.
    - injection Hconv as <-. apply upper_hex6_normalized, Hhex; reflexivity.
    - destruct (startswith "rgb" (strip raw)) eqn:E2;
        [|exact (named_color_normalized _ _ _ Hnames Hconv)].
      specialize (Hrgb eq_refl). unfold channels_in_range in Hrgb.
      destruct (findall_digits (strip raw)) as [|n0 [|n1 [|n2 more]]];
        try exact (named_color_normalized _ _ _ Hnames Hconv).
      simpl in Hrgb.
      destruct (int_dec n0) as [r|] eqn:I0; [|discriminate].
      destruct (int_dec n1) as [g|] eqn:I1; [|discriminate].
      destruct (int_dec n2) as [b|] eqn:I2; [|discriminate].
      injection Hconv as <-.
      repeat (apply andb_true_iff in Hrgb; destruct Hrgb as [? Hrgb]).
      apply format_02X_three_normalized;
        (split; [eapply int_dec_nonneg; eassumption | now apply Z.leb_le]). }
  split; [exact N|].
  unfold is_normalized_color in N.
  destruct hex as [|c t]; [discriminate|].
  destruct (Ascii.eqb_spec c "#") as [->|Hc].
  - apply andb_true_iff in N; destruct N as [L _].
    apply Nat.eqb_eq in L. simpl; congruence.
  - exfalso; apply Hc.
    destruct c as [[] [] [] [] [] [] [] []]; first [reflexivity | discriminate N].
Qed.

(** C3, amended, on ["  #1a2b3c "], [rgb(255, 0, 10)] and a name table that
    knows nothing. *)
Lemma convert_to_hex_normalized_examples :
  _convert_to_hex no_names "  #1a2b3c " = Some "#1A2B3C"
  /\ (is_normalized_color "#1A2B3C" = true /\ String.length "#1A2B3C" = 7%nat)
  /\ _convert_to_hex no_names "rgb(255, 0, 10)" = Some "#FF000A"
  /\ (is_normalized_color "#FF000A" = true /\ String.length "#FF000A" = 7%nat).
Proof.
  split; [reflexivity|]. split; [|split; [reflexivity|]].
  - apply (convert_to_hex_normalized no_names "  #1a2b3c " "#1A2B3C");
      first [discriminate | reflexivity].
  - apply (convert_to_hex_normalized no_names "rgb(255, 0, 10)" "#FF000A");
      first [discriminate | reflexivity].
Defined.

(** ** Contrast ratio: the fail-safe *)

Section ContrastFailSafe.

Variable fpow : float -> float -> float.

(** With fewer than five characters the slice [[4:6]] is empty and [int]
    rejects it. *)
Lemma hex_to_rgb_short (hex_color : string) :
  (String.length (lstrip_char "#" hex_color) < 5)%nat -> hex_to_rgb hex_color = None.
Proof.
  unfold hex_to_rgb. intros H.
  assert (E : slice 4 6 (lstrip_char "#" hex_color) = EmptyString).
  { destruct (lstrip_char "#" hex_color) as [|c0 [|c1 [|c2 [|c3 [|c4 t]]]]];
      try reflexivity.
    simpl in H; lia. }
  rewrite E.
  destruct (int_hex (slice 0 2 (lstrip_char "#" hex_color))); [|reflexivity].
  destruct (int_hex (slice 2 4 (lstrip_char "#" hex_color))); reflexivity.
Qed.

Lemma contrast_ratio_unparsed (color1 color2 : string) :
  hex_to_rgb color1 = None \/ hex_to_rgb color2 = None ->
  _get_contrast_ratio fpow color1 color2 = 1%float.
Proof.
  unfold _get_contrast_ratio, contrast_ratio_body, luminance.
  intros [H|H].
  - rewrite H; reflexivity.
  - rewrite H. destruct (hex_to_rgb color1) as [[[r g] b]|]; reflexivity.
Qed.

End ContrastFailSafe.

(** C7, amended. [_get_contrast_ratio] returns exactly 1.0 whenever the
    hexadecimal reading of one of its arguments fails, that is when, after
    the leading ['#'] characters are removed, one of the slices [[0:2]],
    [[2:4]], [[4:6]] is rejected by [int(., 16)]; this is the case of every
    argument with fewer than five characters left. *)
Theorem contrast_ratio_fail_safe
  (fpow : float -> float -> float) (color1 color2 : string) :
  (hex_to_rgb color1 = None \/ hex_to_rgb color2 = None ->
   _get_contrast_ratio fpow color1 color2 = 1%float)
  /\ ((String.length (lstrip_char "#" color1) < 5)%nat
      \/ (String.length (lstrip_char "#" color2) < 5)%nat ->
      _get_contrast_ratio fpow color1 color2 = 1%float).
Proof.
  split.
  - apply contrast_ratio_unparsed.
  - intros [H|H]; apply contrast_ratio_unparsed;
      [left|right]; apply hex_to_rgb_short, H.
Qed.

(** C7, amended, on a three-digit colour, on a colour with a letter that is
    not hexadecimal, on the empty text, and on a colour whose first slice is
    the separator FS followed by a digit, which [str.strip] would trim but
    [int(., 16)] rejects. *)
Lemma contrast_ratio_fail_safe_examples :
  _get_contrast_ratio pow_ref "#FFF" "#000000" = 1%float
  /\ _get_contrast_ratio pow_ref "#FFFFFF" "#GG0000" = 1%float
  /\ _get_contrast_ratio pow_ref "" "#000000" = 1%float
  /\ (hex_to_rgb (String "#" (String "028" "50505")) = None
      /\ _get_contrast_ratio pow_ref (String "#" (String "028" "50505")) "#000000"
         = 1%float).
Proof.
  split; [|split; [|split; [|split]]].
  - apply (proj2 (contrast_ratio_fail_safe pow_ref "#FFF" "#000000")).
    left; vm_compute; lia.
  - apply (proj1 (contrast_ratio_fail_safe pow_ref "#FFFFFF" "#GG0000")).
    right; reflexivity.
  - apply (proj2 (contrast_ratio_fail_safe pow_ref "" "#000000")).
    left; vm_compute; lia.
  - reflexivity.
  - apply (proj1 (contrast_ratio_fail_safe pow_ref
                    (String "#" (String "028" "50505")) "#000000")).
    left; reflexivity.
Defined.

(** * Further properties *)

(** ** Fonts: the buckets and the selection

    The same [_process_fonts] is repeated verbatim in the three other
    strategies (method2_css_llm.py, method3_screenshot_direct.py,
    method4_screenshot_palette.py). *)


(** X1. The loop of [_process_fonts] partitions the input in order: the
    custom bucket is the sub-list of the fonts that are not generic (in lower
    case) and not spelled as a system font, the fallback bucket the sub-list
    of the non-generic fonts spelled as a system font; duplicates are kept. *)
Theorem font_buckets_are_sublists (font_list : list string) :
  custom_fonts (classify_fonts font_list) = filter is_custom font_list
  /\ fallback_fonts (classify_fonts font_list) = filter is_fallback font_list.
Proof.
  rewrite classify_fonts_filter. split; reflexivity.
Qed.

(** X2. Every font returned by [_process_fonts] is a font of the input or
    one of the paddings Helvetica and Arial, and none is a generic keyword in
    any letter case: the third padding entry [sans-serif] is never returned. *)
Theorem selected_fonts_are_not_generic (font_list : list string) (font : string) :
  In font (_process_fonts font_list) ->
  (In font font_list \/ font = "Helvetica" \/ font = "Arial")
  /\ is_generic font = false.
Proof.
  rewrite process_fonts_selection. intros H. apply in_firstn in H.
  apply in_app_or in H. destruct H as [H|H].
  - assert (S : In font (filter is_custom font_list) \/ In font (filter is_fallback font_list)).
    { destruct (filter is_custom font_list); [right|left]; exact H. }
    destruct S as [S|S];
      [apply filter_custom_spec in S|apply filter_fallback_spec in S];
      destruct S as [S1 S2]; auto.
  - destruct H as [<-|[<-|[]]]; split; auto.
Qed.

(** X2 on an input made of generic keywords and one system font. *)
Lemma selected_fonts_are_not_generic_example :
  (In "Georgia" ["serif"; "Georgia"; "Sans-Serif"]
   \/ "Georgia" = "Helvetica" \/ "Georgia" = "Arial")
  /\ is_generic "Georgia" = false.
Proof.
  apply (selected_fonts_are_not_generic ["serif"; "Georgia"; "Sans-Serif"] "Georgia").
  vm_compute. left; reflexivity.
Defined.

(** X3. The selection as a table.  Two or more custom fonts: the first two,
    in input order.  Exactly one custom font: that font and Helvetica,
    whatever system fonts the input holds.  No custom font: the first two
    system fonts, or the single one with Helvetica, or Helvetica and Arial. *)
Theorem font_selection_table (font_list : list string) :
  _process_fonts font_list
  = match filter is_custom font_list with
    | c1 :: c2 :: _ => [c1; c2]
    | [c] => [c; "Helvetica"]
    | [] =>
        match filter is_fallback font_list with
        | f1 :: f2 :: _ => [f1; f2]
        | [f] => [f; "Helvetica"]
        | [] => ["Helvetica"; "Arial"]
        end
    end.
Proof.
  rewrite process_fonts_selection.
  destruct (filter is_custom font_list) as [|c1 [|c2 cs]]; try reflexivity.
  destruct (filter is_fallback font_list) as [|f1 [|f2 fs]]; reflexivity.
Qed.

(** ** Colours: the frequency table *)

Section CounterFacts.

#[local] Open Scope list_scope.

Lemma filter_filter_and {A : Type} (p q : A -> bool) (l : list A) :
  filter p (filter q l) = filter (fun y => q y && p y) l.
Proof.
  induction l as [|y l IH]; simpl; [reflexivity|].
  destruct (q y); simpl; [destruct (p y)|]; rewrite IH; reflexivity.
Qed.

Lemma filter_drop (p : string -> bool) (x : string) (l : list string) :
  p x = false ->
  filter p (filter (fun y => negb (String.eqb y x)) l) = filter p l.
Proof.
  intros Hx. rewrite filter_filter_and. apply filter_ext. intros y.
  destruct (String.eqb_spec y x) as [->|_]; simpl; [now rewrite Hx|reflexivity].
Qed.

Lemma filter_swap {A : Type} (p q : A -> bool) (l : list A) :
  filter p (filter q l) = filter q (filter p l).
Proof.
  rewrite !filter_filter_and. apply filter_ext. intros y. apply andb_comm.
Qed.

Lemma distinct_filter (p : string -> bool) (l : list string) :
  distinct (filter p l) = filter p (distinct l).
Proof.
  induction l as [|x l IH]; simpl; [reflexivity|].
  destruct (p x) eqn:Hx; simpl.
  - rewrite IH. f_equal. apply filter_swap.
  - rewrite IH. symmetry. now apply filter_drop.
Qed.

Lemma distinct_In (l : list string) (x : string) : In x (distinct l) <-> In x l.
Proof.
  induction l as [|y l IH]; simpl; [tauto|].
  rewrite filter_In, IH.
  destruct (String.eqb_spec x y) as [->|Hxy]; simpl.
  - split; auto.
  - split; intros [H|H]; auto. destruct H; auto.
Qed.

Lemma distinct_NoDup (l : list string) : NoDup (distinct l).
Proof.
  induction l as [|x l IH]; simpl; constructor.
  - rewrite filter_In. intros [_ H]. rewrite String.eqb_refl in H. discriminate H.
  - apply NoDup_filter, IH.
Qed.

Lemma mem_In (x : string) (l : list string) : mem x l = true <-> In x l.
Proof.
  unfold mem. rewrite existsb_exists. split.
  - intros [y [H1 H2]]. apply String.eqb_eq in H2. now subst.
  - intros H. exists x. split; [exact H|apply String.eqb_refl].
Qed.

(** Adding an occurrence appends a new key or leaves the keys alone. *)
Lemma counter_add_keys_eq (x : string) (cnt : counter) :
  map fst (counter_add x cnt)
  = if mem x (map fst cnt) then map fst cnt else map fst cnt ++ [x].
Proof.
  induction cnt as [|[k n] rest IH]; simpl; [reflexivity|].
  rewrite (String.eqb_sym x k).
  destruct (String.eqb k x); simpl; [reflexivity|].
  rewrite IH. destruct (mem x (map fst rest)); reflexivity.
Qed.

Lemma fold_counter_keys_eq (l : list string) (acc : counter) :
  map fst (fold_left (fun cnt x => counter_add x cnt) l acc)
  = map fst acc ++ distinct (filter (fun x => negb (mem x (map fst acc))) l).
Proof.
  revert acc; induction l as [|x l IH]; intros acc; simpl.
  - now rewrite app_nil_r.
  - rewrite IH, counter_add_keys_eq.
    destruct (mem x (map fst acc)) eqn:Hm; simpl; [reflexivity|].
    rewrite <- app_assoc; simpl. do 2 f_equal.
    rewrite <- distinct_filter. f_equal.
    rewrite filter_filter_and. apply filter_ext. intros y.
    unfold mem. rewrite existsb_app; simpl.
    rewrite orb_false_r, negb_orb. reflexivity.
Qed.

(** The keys of a counter are the distinct elements, in first-seen order. *)
Lemma Counter_keys_distinct (l : list string) : map fst (Counter l) = distinct l.
Proof.
  unfold Counter. rewrite fold_counter_keys_eq; simpl.
  f_equal. clear. induction l as [|x l IH]; simpl; congruence.
Qed.

Lemma occurrences_cons (k x : string) (l : list string) :
  occurrences k (x :: l)
  = ((if String.eqb x k then 1 else 0) + occurrences k l)%nat.
Proof.
  unfold occurrences; simpl. rewrite (String.eqb_sym k x).
  destruct (String.eqb x k); reflexivity.
Qed.

Lemma get_count_add (k x : string) (cnt : counter) :
  get_count k (counter_add x cnt)
  = (get_count k cnt + if String.eqb x k then 1 else 0)%nat.
Proof.
  induction cnt as [|[k' n] rest IH]; simpl.
  - destruct (String.eqb x k); reflexivity.
  - destruct (String.eqb_spec k' x) as [->|Hne]; simpl.
    + destruct (String.eqb x k); lia.
    + destruct (String.eqb_spec k' k) as [->|_]; [|exact IH].
      destruct (String.eqb_spec x k) as [->|_]; [congruence|lia].
Qed.

Lemma fold_get_count (k : string) (l : list string) (acc : counter) :
  get_count k (fold_left (fun cnt x => counter_add x cnt) l acc)
  = (get_count k acc + occurrences k l)%nat.
Proof.
  revert acc; induction l as [|x l IH]; intros acc; simpl.
  - unfold occurrences; simpl; lia.
  - rewrite IH, get_count_add, occurrences_cons. lia.
Qed.

(** The count recorded for a key is its number of occurrences. *)
Lemma get_count_Counter (k : string) (l : list string) :
  get_count k (Counter l) = occurrences k l.
Proof.
  unfold Counter. rewrite fold_get_count. reflexivity.
Qed.

Lemma get_count_In (cnt : counter) (k : string) (n : nat) :
  NoDup (map fst cnt) -> In (k, n) cnt -> get_count k cnt = n.
Proof.
  induction cnt as [|[k' n'] rest IH]; simpl; [tauto|].
  intros Hnd [H|H].
  - injection H as -> ->. now rewrite String.eqb_refl.
  - inversion Hnd as [|? ? Hnotin Hnd']; subst.
    destruct (String.eqb_spec k' k) as [->|_]; [|now apply IH].
    exfalso; apply Hnotin. apply in_map_iff. exists (k, n); auto.
Qed.

Lemma In_get_count (cnt : counter) (k : string) :
  In k (map fst cnt) -> In (k, get_count k cnt) cnt.
Proof.
  induction cnt as [|[k' n'] rest IH]; simpl; [tauto|].
  destruct (String.eqb_spec k' k) as [->|Hne]; [auto|].
  intros [H|H]; [congruence|right; auto].
Qed.

Lemma Counter_In (l : list string) (k : string) (n : nat) :
  In (k, n) (Counter l) -> n = occurrences k l.
Proof.
  intros H. rewrite <- get_count_Counter. symmetry.
  apply get_count_In; [|exact H].
  rewrite Counter_keys_distinct. apply distinct_NoDup.
Qed.

Lemma occurrences_pos (l : list string) (k : string) :
  In k l -> (0 < occurrences k l)%nat.
Proof.
  induction l as [|x l IH]; simpl; [tauto|].
  rewrite occurrences_cons. intros [->|H].
  - rewrite String.eqb_refl; lia.
  - specialize (IH H); lia.
Qed.

Lemma occurrences_zero (l : list string) (k : string) :
  ~ In k l -> occurrences k l = 0%nat.
Proof.
  induction l as [|x l IH]; simpl; [reflexivity|].
  rewrite occurrences_cons. intros H.
  destruct (String.eqb_spec x k) as [->|_]; [tauto|]. apply IH; tauto.
Qed.

(** [max_by_count] returns an item whose count no other item exceeds. *)
Lemma max_by_count_max (items : counter) (best it : string * nat) :
  In it (best :: items) -> (snd it <= snd (max_by_count best items))%nat.
Proof.
  revert best it; induction items as [|x rest IH]; intros best it; simpl.
  - intros [<-|[]]; lia.
  - destruct (snd best <? snd x)%nat eqn:E.
    + apply Nat.ltb_lt in E. intros [H|[H|H]].
      * subst it. pose proof (IH x x (or_introl eq_refl)); lia.
      * subst it. apply IH; left; reflexivity.
      * apply IH; right; exact H.
    + apply Nat.ltb_ge in E. intros [H|[H|H]].
      * subst it. apply IH; left; reflexivity.
      * subst it. pose proof (IH best best (or_introl eq_refl)); lia.
      * apply IH; right; exact H.
Qed.

Lemma without_white_black_spec (color_list : list (option string)) (c : string) :
  In c (without_white_black color_list) ->
  c <> "#FFFFFF" /\ c <> "#000000" /\ c <> EmptyString.
Proof.
  induction color_list as [|[h|] rest IH]; intros H.
  - destruct H.
  - simpl in H.
    match type of H with In _ (if ?b then _ else _) => destruct b eqn:E end;
      [|now apply IH].
    destruct H as [<-|H]; [|now apply IH].
    apply andb_true_iff in E; destruct E as [E E3].
    apply andb_true_iff in E; destruct E as [E1 E2].
    apply negb_true_iff in E2, E3.
    apply String.eqb_neq in E2, E3.
    repeat split; try assumption.
    intros ->; discriminate E1.
  - now apply IH.
Qed.

(** The winner of [_get_most_common_color] among the kept colours. *)
Lemma get_most_common_color_winner (color_list : list (option string)) (default : string) :
  without_white_black color_list <> [] ->
  In (_get_most_common_color color_list default) (without_white_black color_list)
  /\ forall c, (occurrences c (without_white_black color_list)
                <= occurrences (_get_most_common_color color_list default)
                     (without_white_black color_list))%nat.
Proof.
  intros Hne. unfold _get_most_common_color.
  remember (without_white_black color_list) as kept eqn:Ek.
  destruct kept as [|x rest]; [congruence|].
  remember (x :: rest) as L eqn:EL.
  pose proof (Counter_keys_distinct L) as Hk.
  unfold most_common_1.
  destruct (Counter L) as [|it items] eqn:EC.
  - exfalso.
    assert (H : In x (distinct L)) by (apply distinct_In; rewrite EL; left; reflexivity).
    rewrite <- Hk in H. destruct H.
  - destruct (max_by_count it items) as [w n] eqn:EM.
    assert (Hin : In (w, n) (Counter L)).
    { rewrite EC, <- EM. apply max_by_count_In. }
    assert (Hw : In w L).
    { apply distinct_In. rewrite <- Hk. apply in_map_iff. exists (w, n).
      split; [reflexivity|]. rewrite <- EC. exact Hin. }
    split; [exact Hw|]. intros c.
    rewrite <- (Counter_In _ _ _ Hin).
    destruct (in_dec string_dec c L) as [Hc|Hc];
      [|rewrite (occurrences_zero _ _ Hc); lia].
    assert (Hc' : In (c, get_count c (Counter L)) (Counter L)).
    { apply In_get_count. rewrite EC, Hk. now apply distinct_In. }
    rewrite <- get_count_Counter.
    rewrite EC in Hc'.
    pose proof (max_by_count_max items it _ Hc') as M.
    rewrite EM in M. simpl in M. rewrite EC. exact M.
Qed.

End CounterFacts.

(** X4. The frequency table of [_process_colors] lists each normalised
    colour once, in the order in which the colours are first seen, and the
    count it records for a colour is the number of observations normalised to
    that colour. *)
Theorem color_counts_are_occurrences
  (name_to_hex : string -> option string) (colors : list (string * list string)) :
  let observed := all_colors name_to_hex colors in
  map fst (Counter observed) = distinct observed
  /\ (forall c, get_count c (Counter observed) = occurrences c observed)
  /\ (forall c n, In (c, n) (Counter observed) ->
                  n = occurrences c observed /\ (0 < n)%nat).
Proof.
  intros observed. split; [apply Counter_keys_distinct|].
  split; [intros c; apply get_count_Counter|].
  intros c n H. pose proof (Counter_In _ _ _ H) as E. split; [exact E|].
  rewrite E. apply occurrences_pos, distinct_In.
  rewrite <- Counter_keys_distinct. apply in_map_iff. exists (c, n); auto.
Qed.

(** X5. [_get_most_common_color] drops the absent and empty entries and the
    colours [#FFFFFF] and [#000000].  When nothing is left it returns the
    default; otherwise it returns one of the colours left, and no colour left
    occurs more often than the one returned. *)
Theorem most_common_color_is_most_frequent
  (color_list : list (option string)) (default : string) :
  let kept := without_white_black color_list in
  let winner := _get_most_common_color color_list default in
  (kept = [] -> winner = default)
  /\ (kept <> [] ->
      In winner kept /\ winner <> "#FFFFFF" /\ winner <> "#000000"
      /\ forall c, (occurrences c kept <= occurrences winner kept)%nat).
Proof.
  intros kept winner. split.
  - intros E. unfold winner, _get_most_common_color. fold kept. rewrite E. reflexivity.
  - intros Hne.
    destruct (get_most_common_color_winner color_list default Hne) as [Hin Hmax].
    split; [exact Hin|].
    destruct (without_white_black_spec _ _ Hin) as [H1 [H2 _]].
    split; [exact H1|]. split; [exact H2|exact Hmax].
Qed.

(** ** Colours: the candidates and the roles *)

Section Candidates.

#[local] Open Scope list_scope.

Variable name_to_hex : string -> option string.

Lemma filtered_colors_keys_eq (cnt : counter) :
  map fst (filtered_colors cnt) = filter not_excluded (map fst cnt).
Proof.
  unfold filtered_colors, not_excluded.
  induction cnt as [|[k n] rest IH]; [reflexivity|].
  cbn [filter map fst].
  destruct (negb (mem k excluded_colors)); cbn [map fst]; rewrite IH; reflexivity.
Qed.

(** The keys that survive the exclusion, in first-seen order. *)
Lemma filtered_colors_distinct (colors : list (string * list string)) :
  map fst (filtered_colors (Counter (all_colors name_to_hex colors)))
  = distinct (filter not_excluded (all_colors name_to_hex colors)).
Proof.
  rewrite filtered_colors_keys_eq, Counter_keys_distinct, distinct_filter. reflexivity.
Qed.

Lemma most_common_distinct (colors : list (string * list string)) :
  most_common name_to_hex colors
  = match distinct (filter not_excluded (all_colors name_to_hex colors)) with
    | [] => ["#333333"]
    | k :: ks => firstn 10 (k :: ks)
    end.
Proof.
  unfold most_common. rewrite <- filtered_colors_distinct.
  destruct (filtered_colors (Counter (all_colors name_to_hex colors))); reflexivity.
Qed.

Lemma distinct_head (l : list string) (default : string) :
  hd default (distinct l) = hd default l.
Proof.
  destruct l; reflexivity.
Qed.

Lemma not_excluded_spec (c : string) :
  not_excluded c = true -> c <> "#FFFFFF" /\ c <> "#000000".
Proof.
  intros H; split; intros ->; discriminate H.
Qed.

Lemma most_common_not_excluded (colors : list (string * list string)) (c : string) :
  In c (most_common name_to_hex colors) -> not_excluded c = true.
Proof.
  rewrite most_common_distinct.
  destruct (distinct (filter not_excluded (all_colors name_to_hex colors)))
    as [|k ks] eqn:E.
  - intros [<-|[]]; reflexivity.
  - intros H. apply in_firstn in H. rewrite <- E in H.
    apply distinct_In, filter_In in H. tauto.
Qed.

Lemma category_color_not_white_black (color_list : list (option string)) (default : string) :
  _get_most_common_color color_list default = default
  \/ (_get_most_common_color color_list default <> "#FFFFFF"
      /\ _get_most_common_color color_list default <> "#000000").
Proof.
  destruct (without_white_black color_list) as [|x rest] eqn:E.
  - left. unfold _get_most_common_color. rewrite E. reflexivity.
  - right.
    assert (Hne : without_white_black color_list <> []) by (rewrite E; discriminate).
    destruct (get_most_common_color_winner color_list default Hne) as [Hin _].
    destruct (without_white_black_spec _ _ Hin) as [H1 [H2 _]]. split; assumption.
Qed.

End Candidates.

(** X6. The candidate list of [_process_colors] is made of the first ten
    distinct normalised colours other than [#FFFFFF], [#000000] and
    [#TRANSPARENT], in the order in which they are first observed
    ([#333333] alone when there is none).  Hence the primary colour is the
    first observed colour that is not excluded, and the secondary colour
    before the legibility check is the second distinct one, or [#666666]. *)
Theorem candidates_are_first_seen
  (name_to_hex : string -> option string) (fpow : float -> float -> float)
  (colors : list (string * list string)) :
  let kept := distinct (filter not_excluded (all_colors name_to_hex colors)) in
  most_common name_to_hex colors
  = match kept with
    | [] => ["#333333"]
    | _ :: _ => firstn 10 kept
    end
  /\ primaryColor (_process_colors name_to_hex fpow colors)
     = hd "#333333" (filter not_excluded (all_colors name_to_hex colors))
  /\ chosen_secondary name_to_hex colors = List.nth 1 kept "#666666".
Proof.
  intros kept.
  pose proof (most_common_distinct name_to_hex colors) as M. fold kept in M.
  split; [|split].
  - rewrite M. destruct kept; reflexivity.
  - rewrite <- (distinct_head (filter not_excluded (all_colors name_to_hex colors))).
    fold kept. unfold _process_colors; cbv zeta. unfold primaryColor.
    rewrite M. destruct kept as [|k ks]; reflexivity.
  - unfold chosen_secondary. rewrite M.
    destruct kept as [|k [|k2 ks]]; reflexivity.
Qed.

(** X7. No role colour returned by [_process_colors] is [#000000], whatever
    the observations: black is excluded from the candidates and from the
    background and link lists, and no default is black.  The primary and the
    link colour are never [#FFFFFF] either. *)
Theorem no_role_is_black
  (name_to_hex : string -> option string) (fpow : float -> float -> float)
  (colors : list (string * list string)) :
  let roles := _process_colors name_to_hex fpow colors in
  (primaryColor roles <> "#000000" /\ secondaryColor roles <> "#000000"
   /\ backgroundColor roles <> "#000000" /\ linkColor roles <> "#000000")
  /\ primaryColor roles <> "#FFFFFF" /\ linkColor roles <> "#FFFFFF".
Proof.
  intros roles.
  assert (Hmc : forall c, In c (most_common name_to_hex colors) ->
                c <> "#FFFFFF" /\ c <> "#000000").
  { intros c Hc. apply not_excluded_spec, (most_common_not_excluded _ _ _ Hc). }
  assert (Hp : primaryColor roles <> "#FFFFFF" /\ primaryColor roles <> "#000000").
  { unfold roles, _process_colors; cbv zeta; unfold primaryColor.
    destruct (most_common name_to_hex colors) as [|c cs] eqn:E.
    - split; discriminate.
    - apply Hmc; left; reflexivity. }
  assert (Hb : backgroundColor roles <> "#000000").
  { unfold roles, _process_colors; cbv zeta; unfold backgroundColor, background_color.
    destruct (category_color_not_white_black
                (map (_convert_to_hex name_to_hex) (dict_get "backgroundColors" colors))
                "#FFFFFF") as [->|[_ H]]; [discriminate|exact H]. }
  assert (Hl : linkColor roles <> "#FFFFFF" /\ linkColor roles <> "#000000").
  { unfold roles, _process_colors; cbv zeta; unfold linkColor, link_color.
    destruct (category_color_not_white_black
                (map (_convert_to_hex name_to_hex) (dict_get "linkColors" colors))
                "#0066CC") as [->|H]; [split; discriminate|exact H]. }
  assert (Hs : secondaryColor roles <> "#000000").
  { unfold roles, _process_colors; cbv zeta; unfold secondaryColor.
    destruct (PrimFloat.ltb _ 3).
    - destruct (negb _); discriminate.
    - destruct (second_or_default_In (most_common name_to_hex colors)) as [->|H];
        [discriminate|apply (Hmc _ H)]. }
  tauto.
Qed.

(** ** Colour normalisation: letter case and idempotence *)

Section CaseAndTrim.

Lemma upper_char_not_lower (c : ascii) : is_lower (upper_char c) = false.
Proof.
  destruct c as [[] [] [] [] [] [] [] []]; vm_compute; reflexivity.
Qed.

Lemma upper_char_idem (c : ascii) : upper_char (upper_char c) = upper_char c.
Proof.
  destruct c as [[] [] [] [] [] [] [] []]; vm_compute; reflexivity.
Qed.

Lemma upper_char_space (c : ascii) : is_space (upper_char c) = is_space c.
Proof.
  destruct c as [[] [] [] [] [] [] [] []]; vm_compute; reflexivity.
Qed.

Lemma upper_hex_digit_plain (c : ascii) :
  is_upper_hex_digit c = true ->
  is_lower c = false /\ is_space c = false /\ upper_char c = c.
Proof.
  destruct c as [[] [] [] [] [] [] [] []]; vm_compute; intros H;
    first [discriminate H | repeat split].
Qed.

Lemma forallb_string_app (p : ascii -> bool) (a b : string) :
  forallb_string p (a ++ b) = forallb_string p a && forallb_string p b.
Proof.
  induction a as [|c a IH]; simpl; [reflexivity|].
  rewrite IH, andb_assoc. reflexivity.
Qed.

Lemma upper_no_lower (s : string) : no_lower (upper s) = true.
Proof.
  induction s as [|c t IH]; [reflexivity|].
  unfold no_lower, upper in *; simpl. rewrite upper_char_not_lower, IH. reflexivity.
Qed.

Lemma upper_idem (s : string) : upper (upper s) = upper s.
Proof.
  induction s as [|c t IH]; [reflexivity|].
  unfold upper in *; simpl. rewrite upper_char_idem, IH. reflexivity.
Qed.

Lemma hex_digit_table :
  forallb (fun d => is_upper_hex_digit (hex_digit d)) (map Z.of_nat (seq 0 16)) = true.
Proof. vm_compute; reflexivity. Qed.

Lemma hex_digit_upper (d : Z) :
  (0 <= d < 16)%Z -> is_upper_hex_digit (hex_digit d) = true.
Proof.
  intros H.
  apply (proj1 (forallb_forall _ _) hex_digit_table).
  apply in_map_iff. exists (Z.to_nat d). split; [lia|apply in_seq; lia].
Qed.

Lemma hex_upper_aux_digits (fuel : nat) (n : Z) (acc : string) :
  (0 <= n)%Z ->
  forallb_string is_upper_hex_digit acc = true ->
  forallb_string is_upper_hex_digit (hex_upper_aux fuel n acc) = true.
Proof.
  revert n acc; induction fuel as [|fuel IH]; intros n acc Hn Hacc; simpl;
    [exact Hacc|].
  assert (Hd : forallb_string is_upper_hex_digit (String (hex_digit (n mod 16)) acc) = true).
  { simpl. rewrite hex_digit_upper, Hacc; [reflexivity|].
    apply Z.mod_pos_bound; lia. }
  destruct (n <? 16)%Z; [exact Hd|].
  apply IH; [apply Z.div_pos; lia|exact Hd].
Qed.

(** [format_02X] writes upper-case hexadecimal digits only, whatever the
    size of the number. *)
Lemma format_02X_digits (n : Z) :
  (0 <= n)%Z -> forallb_string is_upper_hex_digit (format_02X n) = true.
Proof.
  intros Hn. unfold format_02X.
  destruct (Z.ltb_spec n 0) as [H|_]; [lia|].
  assert (Hh : forallb_string is_upper_hex_digit (hex_upper n) = true)
    by (apply hex_upper_aux_digits; [exact Hn|reflexivity]).
  destruct (String.length (hex_upper n) <? 2)%nat; [|exact Hh].
  simpl. exact Hh.
Qed.

Lemma upper_hex_digits_no_lower (s : string) :
  forallb_string is_upper_hex_digit s = true -> no_lower s = true.
Proof.
  unfold no_lower. induction s as [|c t IH]; simpl; [reflexivity|].
  intros H; apply andb_true_iff in H; destruct H as [Hc Ht].
  destruct (upper_hex_digit_plain c Hc) as [-> _]. simpl. apply IH, Ht.
Qed.

Lemma upper_hex_digits_upper (s : string) :
  forallb_string is_upper_hex_digit s = true -> upper s = s.
Proof.
  unfold upper. induction s as [|c t IH]; simpl; [reflexivity|].
  intros H; apply andb_true_iff in H; destruct H as [Hc Ht].
  destruct (upper_hex_digit_plain c Hc) as [_ [_ ->]]. now rewrite IH.
Qed.

Lemma rstrip_no_space (s : string) :
  forallb_string (fun c => negb (is_space c)) s = true -> rstrip s = s.
Proof.
  induction s as [|c t IH]; simpl; [reflexivity|].
  intros H; apply andb_true_iff in H; destruct H as [Hc Ht].
  apply negb_true_iff in Hc. rewrite (IH Ht), Hc. destruct t; reflexivity.
Qed.

Lemma upper_hex_digits_no_space (s : string) :
  forallb_string is_upper_hex_digit s = true ->
  forallb_string (fun c => negb (is_space c)) s = true.
Proof.
  induction s as [|c t IH]; simpl; [reflexivity|].
  intros H; apply andb_true_iff in H; destruct H as [Hc Ht].
  destruct (upper_hex_digit_plain c Hc) as [_ [-> _]]. simpl. apply IH, Ht.
Qed.

Lemma lstrip_map_upper (s : string) : lstrip (upper s) = upper (lstrip s).
Proof.
  unfold upper. induction s as [|c t IH]; simpl; [reflexivity|].
  rewrite upper_char_space. destruct (is_space c); [exact IH|reflexivity].
Qed.

Lemma rstrip_map_upper (s : string) : rstrip (upper s) = upper (rstrip s).
Proof.
  unfold upper. induction s as [|c t IH]; simpl; [reflexivity|].
  rewrite IH, upper_char_space.
  destruct (rstrip t); simpl; [destruct (is_space c)|]; reflexivity.
Qed.

Lemma strip_upper (s : string) : strip (upper s) = upper (strip s).
Proof.
  unfold strip. rewrite rstrip_map_upper, lstrip_map_upper. reflexivity.
Qed.

Lemma lstrip_idem (s : string) : lstrip (lstrip s) = lstrip s.
Proof.
  induction s as [|c t IH]; simpl; [reflexivity|].
  destruct (is_space c) eqn:E; [exact IH|]. simpl. rewrite E. reflexivity.
Qed.

Lemma rstrip_idem (s : string) : rstrip (rstrip s) = rstrip s.
Proof.
  induction s as [|c t IH]; simpl; [reflexivity|].
  destruct (rstrip t) as [|a t'] eqn:E.
  - destruct (is_space c) eqn:Ec; simpl; [reflexivity|]. rewrite Ec. reflexivity.
  - change (rstrip (String c (String a t')))
      with (match rstrip (String a t') with
            | EmptyString => if is_space c then EmptyString else String c EmptyString
            | String a' t'' => String c (String a' t'')
            end).
    rewrite IH. reflexivity.
Qed.

Lemma rstrip_lstrip (s : string) : rstrip (lstrip s) = lstrip (rstrip s).
Proof.
  induction s as [|c t IH]; [reflexivity|].
  destruct (is_space c) eqn:Ec.
  - change (lstrip (String c t)) with (if is_space c then lstrip t else String c t).
    rewrite Ec, IH. simpl rstrip at 2. rewrite Ec.
    destruct (rstrip t) as [|a t']; [reflexivity|].
    change (lstrip (String c (String a t')))
      with (if is_space c then lstrip (String a t') else String c (String a t')).
    rewrite Ec. reflexivity.
  - change (lstrip (String c t)) with (if is_space c then lstrip t else String c t).
    rewrite Ec, (rstrip_cons c t Ec).
    change (lstrip (String c (rstrip t)))
      with (if is_space c then lstrip (rstrip t) else String c (rstrip t)).
    rewrite Ec. reflexivity.
Qed.

Lemma strip_idem (s : string) : strip (strip s) = strip s.
Proof.
  unfold strip. rewrite rstrip_lstrip, lstrip_idem, rstrip_idem. reflexivity.
Qed.

Lemma startswith_hash (s : string) :
  startswith "#" s = true -> exists t, s = String "#" t.
Proof.
  unfold startswith. destruct s as [|a t]; [intros H; vm_compute in H; discriminate H|].
  change (String.prefix "#" (String a t))
    with (match ascii_dec "#" a with
          | left _ => String.prefix "" t
          | right _ => false
          end).
  destruct (ascii_dec "#" a) as [E|_]; [|intros H; discriminate H].
  intros _; exists t. rewrite <- E. reflexivity.
Qed.

Lemma startswith_hash_cons (t : string) : startswith "#" (String "#" t) = true.
Proof.
  unfold startswith. simpl. destruct t; reflexivity.
Qed.

End CaseAndTrim.

Section ConvertFixedPoints.

Variable name_to_hex : string -> option string.

(** A trimmed, upper-case text that starts with ['#'] is returned as it is. *)
Lemma convert_fixed (h : string) :
  strip h = h -> startswith "#" h = true -> upper h = h ->
  _convert_to_hex name_to_hex h = Some h.
Proof.
  intros Hs Hp Hu. unfold _convert_to_hex, convert_to_hex_body. cbv zeta.
  rewrite Hs, Hp, Hu. reflexivity.
Qed.

Lemma convert_hash_digits (t : string) :
  forallb_string is_upper_hex_digit t = true ->
  _convert_to_hex name_to_hex (String "#" t) = Some (String "#" t).
Proof.
  intros Ht. apply convert_fixed.
  - unfold strip. rewrite rstrip_no_space; [reflexivity|].
    simpl. now apply upper_hex_digits_no_space.
  - apply startswith_hash_cons.
  - change (upper (String "#" t)) with (String "#" (upper t)).
    now rewrite upper_hex_digits_upper.
Qed.

Lemma normalized_color_shape (h : string) :
  is_normalized_color h = true ->
  exists t, h = String "#" t /\ forallb_string is_upper_hex_digit t = true.
Proof.
  destruct h as [|c t]; [discriminate|].
  unfold is_normalized_color.
  destruct (Ascii.eqb_spec c "#") as [->|Hc].
  - intros H; apply andb_true_iff in H; destruct H as [_ H]. exists t; auto.
  - intros H; exfalso; apply Hc.
    destruct c as [[] [] [] [] [] [] [] []]; first [reflexivity | discriminate H].
Qed.

(** The shape of a result of the [rgb] branch. *)
Lemma rgb_result_digits (r g b : Z) :
  (0 <= r)%Z -> (0 <= g)%Z -> (0 <= b)%Z ->
  forallb_string is_upper_hex_digit (format_02X r ++ format_02X g ++ format_02X b) = true.
Proof.
  intros Hr Hg Hb. rewrite !forallb_string_app, !format_02X_digits by assumption.
  reflexivity.
Qed.

End ConvertFixedPoints.

Section AsciiTexts.

Lemma lstrip_forallb (p : ascii -> bool) (s : string) :
  forallb_string p s = true -> forallb_string p (lstrip s) = true.
Proof.
  induction s as [|c t IH]; [reflexivity|].
  intros H. cbn [lstrip]. destruct (is_space c); [|exact H].
  cbn [forallb_string] in H. apply andb_true_iff in H. apply IH, H.
Qed.

Lemma rstrip_forallb (p : ascii -> bool) (s : string) :
  forallb_string p s = true -> forallb_string p (rstrip s) = true.
Proof.
  induction s as [|c t IH]; [reflexivity|].
  cbn [forallb_string]. intros H. apply andb_true_iff in H. destruct H as [Hc Ht].
  specialize (IH Ht). cbn [rstrip].
  destruct (rstrip t) as [|c' t'].
  - destruct (is_space c); [reflexivity|].
    cbn [forallb_string]. rewrite Hc. reflexivity.
  - cbn [forallb_string] in *. rewrite Hc. exact IH.
Qed.

Lemma strip_ascii (s : string) :
  is_ascii_text s = true -> is_ascii_text (strip s) = true.
Proof.
  intros H. unfold is_ascii_text, strip. apply lstrip_forallb, rstrip_forallb, H.
Qed.

Lemma upper_char_ascii (c : ascii) :
  (code c <? 128)%nat = true -> (code (upper_char c) <? 128)%nat = true.
Proof.
  destruct c as [[] [] [] [] [] [] [] []]; vm_compute; intros H;
    first [reflexivity | discriminate H].
Qed.

Lemma upper_ascii (s : string) :
  is_ascii_text s = true -> is_ascii_text (upper s) = true.
Proof.
  unfold is_ascii_text, upper. induction s as [|c t IH]; [reflexivity|].
  cbn [forallb_string map_string]. intros H. apply andb_true_iff in H.
  destruct H as [Hc Ht]. rewrite (upper_char_ascii c Hc), (IH Ht). reflexivity.
Qed.

Lemma upper_hex_digit_ascii (c : ascii) :
  is_upper_hex_digit c = true -> (code c <? 128)%nat = true.
Proof.
  destruct c as [[] [] [] [] [] [] [] []]; vm_compute; intros H;
    first [reflexivity | discriminate H].
Qed.

Lemma upper_hex_digits_ascii (s : string) :
  forallb_string is_upper_hex_digit s = true -> is_ascii_text s = true.
Proof.
  unfold is_ascii_text. induction s as [|c t IH]; [reflexivity|].
  cbn [forallb_string]. intros H. apply andb_true_iff in H. destruct H as [Hc Ht].
  rewrite (upper_hex_digit_ascii c Hc), (IH Ht). reflexivity.
Qed.

End AsciiTexts.

(** X8. On an ASCII text, with a name table whose colours are ASCII texts, a
    present result of [_convert_to_hex] is an ASCII text that holds none of
    the letters [a] to [z], in the hex branch, the [rgb] branch and the name
    branch alike, whatever the length of the input.  (Beyond ASCII the
    property fails: [str.upper] leaves some lower-case letters as they are.) *)
Theorem convert_to_hex_is_upper_case
  (name_to_hex : string -> option string) (raw hex : string) :
  is_ascii_text raw = true ->
  (forall name h, name_to_hex name = Some h -> is_ascii_text h = true) ->
  _convert_to_hex name_to_hex raw = Some hex ->
  is_ascii_text hex = true /\ no_lower hex = true.
Proof.
  intros Hraw Htable. apply strip_ascii in Hraw.
  unfold _convert_to_hex, convert_to_hex_body. cbv zeta.
  destruct (startswith "#" (strip raw)).
  - intros H; injection H as <-. split; [apply upper_ascii, Hraw|apply upper_no_lower].
  - assert (Named : named_color name_to_hex (strip raw) = Some hex ->
                    is_ascii_text hex = true /\ no_lower hex = true).
    { unfold named_color. destruct (name_to_hex (strip raw)) as [h|] eqn:E; [|discriminate].
      intros H; injection H as <-.
      split; [apply upper_ascii, (Htable _ _ E)|apply upper_no_lower]. }
    destruct (startswith "rgb" (strip raw)); [|exact Named].
    destruct (findall_digits (strip raw)) as [|n0 [|n1 [|n2 more]]]; try exact Named.
    destruct (int_dec n0) as [r|] eqn:I0; [|discriminate].
    destruct (int_dec n1) as [g|] eqn:I1; [|discriminate].
    destruct (int_dec n2) as [b|] eqn:I2; [|discriminate].
    intros H; injection H as <-.
    assert (D : forallb_string is_upper_hex_digit
                  (format_02X r ++ format_02X g ++ format_02X b) = true)
      by (apply rgb_result_digits; eapply int_dec_nonneg; eassumption).
    split.
    + change (is_ascii_text (format_02X r ++ format_02X g ++ format_02X b) = true).
      apply upper_hex_digits_ascii, D.
    + change (no_lower (format_02X r ++ format_02X g ++ format_02X b) = true).
      apply upper_hex_digits_no_lower, D.
Qed.

(** X8 on a mixed-case hex text, an out-of-range [rgb] text, and a name
    known to a one-entry table. *)
Lemma convert_to_hex_is_upper_case_examples :
  no_lower "#AbCdEfAbCd" = false
  /\ (is_ascii_text "#ABCDEFABCD" = true /\ no_lower "#ABCDEFABCD" = true)
  /\ (is_ascii_text "#0102FDE8" = true /\ no_lower "#0102FDE8" = true)
  /\ (is_ascii_text "#FF0000" = true /\ no_lower "#FF0000" = true).
Proof.
  split; [reflexivity|]. split; [|split].
  - apply (convert_to_hex_is_upper_case no_names " #AbCdEfAbCd");
      [reflexivity|intros name h H; discriminate H|reflexivity].
  - apply (convert_to_hex_is_upper_case no_names "rgb(1, 2, 65000)");
      [reflexivity|intros name h H; discriminate H|reflexivity].
  - apply (convert_to_hex_is_upper_case
             (fun name => if String.eqb name "red" then Some "#ff0000" else None) "red");
      [reflexivity| |reflexivity].
    intros name h H. destruct (String.eqb name "red"); [|discriminate H].
    injection H as <-. reflexivity.
Defined.

(** X9. Normalisation is idempotent: with a name table that returns
    six-digit colours, a present result of [_convert_to_hex] is normalised to
    itself. *)
Theorem convert_to_hex_idempotent
  (name_to_hex : string -> option string) (raw hex : string) :
  (forall name v, name_to_hex name = Some v -> is_hex6_color v = true) ->
  _convert_to_hex name_to_hex raw = Some hex ->
  _convert_to_hex name_to_hex hex = Some hex.
Proof.
  intros Hnames.
  unfold _convert_to_hex at 1, convert_to_hex_body. cbv zeta.
  destruct (startswith "#" (strip raw)) eqn:E1.
  - intros H; injection H as <-.
    destruct (startswith_hash _ E1) as [t Et].
    apply convert_fixed.
    + rewrite strip_upper, strip_idem. reflexivity.
    + rewrite Et. change (upper (String "#" t)) with (String "#" (upper t)).
      apply startswith_hash_cons.
    + apply upper_idem.
  - assert (Named : named_color name_to_hex (strip raw) = Some hex ->
                    _convert_to_hex name_to_hex hex = Some hex).
    { intros H. pose proof (named_color_normalized _ _ _ Hnames H) as N.
      destruct (normalized_color_shape _ N) as [t [-> Ht]].
      now apply convert_hash_digits. }
    destruct (startswith "rgb" (strip raw)); [|exact Named].
    destruct (findall_digits (strip raw)) as [|n0 [|n1 [|n2 more]]]; try exact Named.
    destruct (int_dec n0) as [r|] eqn:I0; [|discriminate].
    destruct (int_dec n1) as [g|] eqn:I1; [|discriminate].
    destruct (int_dec n2) as [b|] eqn:I2; [|discriminate].
    intros H; injection H as <-.
    apply (convert_hash_digits name_to_hex (format_02X r ++ format_02X g ++ format_02X b)).
    apply rgb_result_digits; eapply int_dec_nonneg; eassumption.
Qed.

(** X9 on a three-digit hex text with spaces around it and on an [rgb] text
    with a channel above 255. *)
Lemma convert_to_hex_idempotent_examples :
  _convert_to_hex no_names " #abc " = Some "#ABC"
  /\ _convert_to_hex no_names "#ABC" = Some "#ABC"
  /\ _convert_to_hex no_names "rgb(300, 0, 0)" = Some "#12C0000"
  /\ _convert_to_hex no_names "#12C0000" = Some "#12C0000".
Proof.
  split; [reflexivity|]. split; [|split; [reflexivity|]].
  - apply (convert_to_hex_idempotent no_names " #abc " "#ABC");
      [intros name v H; discriminate H|reflexivity].
  - apply (convert_to_hex_idempotent no_names "rgb(300, 0, 0)" "#12C0000");
      [intros name v H; discriminate H|reflexivity].
Defined.

(** ** Contrast ratio: what the hexadecimal reading looks at *)

Section HexReading.

Lemma lstrip_char_length (ch : ascii) (s : string) :
  (String.length (lstrip_char ch s) <= String.length s)%nat.
Proof.
  induction s as [|c t IH]; simpl; [lia|].
  destruct (Ascii.eqb c ch); simpl; lia.
Qed.

Lemma lstrip_char_hashes (hashes s : string) :
  all_hash hashes = true -> lstrip_char "#" (hashes ++ s) = lstrip_char "#" s.
Proof.
  unfold all_hash. induction hashes as [|c t IH]; simpl; [reflexivity|].
  intros H; apply andb_true_iff in H; destruct H as [Hc Ht].
  rewrite Hc. apply IH, Ht.
Qed.

Lemma no_leading_hash (c : ascii) (t : string) :
  lstrip_char "#" (String c t) = String c t -> Ascii.eqb c "#" = false.
Proof.
  simpl. destruct (Ascii.eqb c "#"); [|reflexivity].
  intros H. pose proof (lstrip_char_length "#" t) as L.
  rewrite H in L. simpl in L. lia.
Qed.

(** The reading of a text of six characters with no leading ['#'] does not
    change when ['#'] characters are put before it and anything after it. *)
Lemma hex_to_rgb_six_chars (hashes six tail : string) :
  all_hash hashes = true -> String.length six = 6%nat ->
  lstrip_char "#" six = six ->
  hex_to_rgb (hashes ++ six ++ tail) = hex_to_rgb six.
Proof.
  intros Hh Hlen Hsix.
  destruct six as [|a1 [|b1 [|a2 [|b2 [|a3 [|b3 [|? ?]]]]]]]; try discriminate Hlen.
  pose proof (no_leading_hash _ _ Hsix) as Ha.
  unfold hex_to_rgb. rewrite (lstrip_char_hashes _ _ Hh), Hsix.
  change (lstrip_char "#"
            (String a1 (String b1 (String a2 (String b2 (String a3 (String b3 ""))))) ++ tail))
    with (if Ascii.eqb a1 "#"
          then lstrip_char "#"
                 (String b1 (String a2 (String b2 (String a3 (String b3 "")))) ++ tail)
          else String a1 (String b1 (String a2 (String b2 (String a3 (String b3 tail)))))).
  rewrite Ha. destruct tail; reflexivity.
Qed.

Lemma contrast_ratio_same_reading (fpow : float -> float -> float)
  (c1 c1' c2 c2' : string) :
  hex_to_rgb c1 = hex_to_rgb c1' -> hex_to_rgb c2 = hex_to_rgb c2' ->
  _get_contrast_ratio fpow c1 c2 = _get_contrast_ratio fpow c1' c2'.
Proof.
  intros H1 H2. unfold _get_contrast_ratio, contrast_ratio_body, luminance.
  rewrite H1, H2. reflexivity.
Qed.

Lemma substring_length_le (n m : nat) (s : string) :
  (String.length (String.substring n m s) <= m)%nat.
Proof.
  revert n m; induction s as [|c t IH]; intros n m.
  - destruct n, m; simpl; lia.
  - destruct n as [|n]; [destruct m as [|m]|]; simpl; [lia| |apply IH].
    specialize (IH 0%nat m). lia.
Qed.

Lemma In_all_ascii (c : ascii) : In c all_ascii.
Proof.
  unfold all_ascii. apply in_map_iff. exists (nat_of_ascii c).
  split; [apply ascii_nat_embedding|].
  apply in_seq. pose proof (nat_ascii_bounded c). lia.
Qed.

Lemma short_int_table :
  forallb (fun a =>
             short_int_ok (String a EmptyString)
             && forallb (fun b => short_int_ok (String a (String b EmptyString))
                                  && byte_pair_ok a b) all_ascii) all_ascii
  = true.
Proof. vm_compute; reflexivity. Qed.

Lemma short_int_range (s : string) (v : Z) :
  (String.length s <= 2)%nat -> int_hex s = Some v -> (-15 <= v <= 255)%Z.
Proof.
  intros Hlen Hv.
  assert (Hok : short_int_ok s = true).
  { pose proof (proj1 (forallb_forall _ _) short_int_table) as T.
    destruct s as [|a [|b [|? ?]]]; [reflexivity| | |simpl in Hlen; lia].
    - specialize (T a (In_all_ascii a)). apply andb_true_iff in T. tauto.
    - specialize (T a (In_all_ascii a)). apply andb_true_iff in T. destruct T as [_ T].
      pose proof (proj1 (forallb_forall _ _) T b (In_all_ascii b)) as T'.
      apply andb_true_iff in T'. tauto. }
  unfold short_int_ok in Hok. rewrite Hv in Hok.
  apply andb_true_iff in Hok. destruct Hok as [H1 H2].
  apply Z.leb_le in H1, H2. lia.
Qed.

Lemma byte_pair_value (a b : ascii) :
  is_upper_hex_digit a = true -> is_upper_hex_digit b = true ->
  exists v, int_hex (String a (String b EmptyString)) = Some v /\ (0 <= v <= 255)%Z.
Proof.
  intros Ha Hb.
  pose proof (proj1 (forallb_forall _ _) short_int_table a (In_all_ascii a)) as T.
  apply andb_true_iff in T. destruct T as [_ T].
  pose proof (proj1 (forallb_forall _ _) T b (In_all_ascii b)) as T'.
  apply andb_true_iff in T'. destruct T' as [_ P].
  unfold byte_pair_ok in P. rewrite Ha, Hb in P. simpl in P.
  destruct (int_hex (String a (String b ""))) as [v|]; [|discriminate P].
  exists v. split; [reflexivity|].
  apply andb_true_iff in P. destruct P as [H1 H2].
  apply Z.leb_le in H1, H2. lia.
Qed.

End HexReading.

(** X10. [_get_contrast_ratio] reads six characters only: for a text of six
    characters with no leading ['#'], any number of ['#'] before it and any
    characters after it (a seventh digit, an alpha channel) leave the reading
    and the ratio unchanged, in either argument. *)
Theorem contrast_ratio_reads_six_characters
  (fpow : float -> float -> float) (hashes six tail other : string) :
  all_hash hashes = true -> String.length six = 6%nat ->
  lstrip_char "#" six = six ->
  hex_to_rgb (hashes ++ six ++ tail) = hex_to_rgb six
  /\ _get_contrast_ratio fpow (hashes ++ six ++ tail) other
     = _get_contrast_ratio fpow six other
  /\ _get_contrast_ratio fpow other (hashes ++ six ++ tail)
     = _get_contrast_ratio fpow other six.
Proof.
  intros Hh Hl Hs.
  pose proof (hex_to_rgb_six_chars hashes six tail Hh Hl Hs) as E.
  split; [exact E|].
  split; apply contrast_ratio_same_reading; first [exact E | reflexivity].
Qed.

(** X10 on [##3366CCff] against white. *)
Lemma contrast_ratio_reads_six_characters_example :
  hex_to_rgb "##3366CCff" = hex_to_rgb "3366CC"
  /\ _get_contrast_ratio pow_ref "##3366CCff" "#FFFFFF"
     = _get_contrast_ratio pow_ref "3366CC" "#FFFFFF"
  /\ _get_contrast_ratio pow_ref "#FFFFFF" "##3366CCff"
     = _get_contrast_ratio pow_ref "#FFFFFF" "3366CC".
Proof.
  apply (contrast_ratio_reads_six_characters pow_ref "##" "3366CC" "ff" "#FFFFFF");
    reflexivity.
Defined.

(** X11. When the hexadecimal reading of [_get_contrast_ratio] succeeds,
    each channel lies between -15 and 255: a slice of two characters can hold
    a sign and one digit. *)
Theorem hex_to_rgb_channel_range (hex_color : string) (r g b : Z) :
  hex_to_rgb hex_color = Some (r, g, b) ->
  (-15 <= r <= 255)%Z /\ (-15 <= g <= 255)%Z /\ (-15 <= b <= 255)%Z.
Proof.
  unfold hex_to_rgb, slice.
  destruct (int_hex (substring 0 (2 - 0) (lstrip_char "#" hex_color))) as [r'|] eqn:Er;
    [|discriminate].
  destruct (int_hex (substring 2 (4 - 2) (lstrip_char "#" hex_color))) as [g'|] eqn:Eg;
    [|discriminate].
  destruct (int_hex (substring 4 (6 - 4) (lstrip_char "#" hex_color))) as [b'|] eqn:Eb;
    [|discriminate].
  intros H; injection H as <- <- <-.
  repeat split;
    first [ apply (short_int_range _ _ (substring_length_le _ _ _) Er)
          | apply (short_int_range _ _ (substring_length_le _ _ _) Eg)
          | apply (short_int_range _ _ (substring_length_le _ _ _) Eb) ].
Qed.

(** X11 on a text whose slices are a signed digit, a padded digit and a byte. *)
Lemma hex_to_rgb_channel_range_example :
  hex_to_rgb "#-f 7ff" = Some (-15, 7, 255)%Z
  /\ ((-15 <= -15 <= 255)%Z /\ (-15 <= 7 <= 255)%Z /\ (-15 <= 255 <= 255)%Z).
Proof.
  split; [reflexivity|].
  apply (hex_to_rgb_channel_range "#-f 7ff" (-15) 7 255). reflexivity.
Defined.

(** ** The screenshot palette (method4_screenshot_palette.py) *)

Section Palette.

#[local] Open Scope list_scope.

Lemma byte_triple_spec (r g b : Z) :
  byte_triple (r, g, b) = true ->
  (0 <= r <= 255)%Z /\ (0 <= g <= 255)%Z /\ (0 <= b <= 255)%Z.
Proof.
  unfold byte_triple. rewrite !andb_true_iff, !Z.leb_le. tauto.
Qed.

Lemma normalized_color_six (h : string) :
  is_normalized_color h = true ->
  exists a1 b1 a2 b2 a3 b3,
    h = ("#" ++ String a1 (String b1 "") ++ String a2 (String b2 "")
         ++ String a3 (String b3 ""))%string
    /\ is_upper_hex_digit a1 = true /\ is_upper_hex_digit b1 = true
    /\ is_upper_hex_digit a2 = true /\ is_upper_hex_digit b2 = true
    /\ is_upper_hex_digit a3 = true /\ is_upper_hex_digit b3 = true.
Proof.
  intros H. destruct (normalized_color_shape _ H) as [t [-> Ht]].
  change ((String.length t =? 6)%nat && forallb_string is_upper_hex_digit t = true) in H.
  apply andb_true_iff in H. destruct H as [Hlen _]. apply Nat.eqb_eq in Hlen.
  destruct t as [|a1 [|b1 [|a2 [|b2 [|a3 [|b3 [|? ?]]]]]]]; try discriminate Hlen.
  cbn [forallb_string] in Ht. rewrite !andb_true_iff in Ht.
  exists a1, b1, a2, b2, a3, b3. split; [reflexivity|tauto].
Qed.

(** The decoder of the swatch label on six digits after the ['#']. *)
Lemma swatch_rgb_six (a1 b1 a2 b2 a3 b3 : ascii) (r g b : Z) :
  int_hex (String a1 (String b1 "")) = Some r ->
  int_hex (String a2 (String b2 "")) = Some g ->
  int_hex (String a3 (String b3 "")) = Some b ->
  swatch_rgb
    ("#" ++ String a1 (String b1 "") ++ String a2 (String b2 "") ++ String a3 (String b3 ""))
  = Some (r, g, b).
Proof.
  intros Hr Hg Hb. unfold swatch_rgb.
  change (slice 1 3 ("#" ++ String a1 (String b1 "") ++ String a2 (String b2 "")
                     ++ String a3 (String b3 "")))
    with (String a1 (String b1 "")).
  change (slice 3 5 ("#" ++ String a1 (String b1 "") ++ String a2 (String b2 "")
                     ++ String a3 (String b3 "")))
    with (String a2 (String b2 "")).
  change (slice 5 7 ("#" ++ String a1 (String b1 "") ++ String a2 (String b2 "")
                     ++ String a3 (String b3 "")))
    with (String a3 (String b3 "")).
  rewrite Hr, Hg, Hb. reflexivity.
Qed.

(** On a NormalizedColor the decoder of [_create_palette_image] and the
    decoder of [_get_contrast_ratio] read the same three bytes. *)
Lemma normalized_color_reading (h : string) :
  is_normalized_color h = true ->
  exists r g b,
    hex_to_rgb h = Some (r, g, b) /\ swatch_rgb h = Some (r, g, b)
    /\ (0 <= r <= 255)%Z /\ (0 <= g <= 255)%Z /\ (0 <= b <= 255)%Z.
Proof.
  intros H.
  destruct (normalized_color_six h H)
    as [a1 [b1 [a2 [b2 [a3 [b3 [-> [A1 [B1 [A2 [B2 [A3 B3]]]]]]]]]]]].
  destruct (byte_pair_value a1 b1 A1 B1) as [r [Er Hr]].
  destruct (byte_pair_value a2 b2 A2 B2) as [g [Eg Hg]].
  destruct (byte_pair_value a3 b3 A3 B3) as [b [Eb Hb]].
  exists r, g, b. split; [|split; [|tauto]].
  - apply hex_to_rgb_six; auto using upper_hex_digit_not_hash.
  - apply swatch_rgb_six; assumption.
Qed.

Lemma all_from_spec (fuel : nat) (n k : Z) :
  all_from fuel n = true -> (n <= k < n + Z.of_nat fuel)%Z -> brightness_ok k = true.
Proof.
  revert n; induction fuel as [|fuel IH]; intros n H Hk; [lia|].
  cbn [all_from] in H. apply andb_true_iff in H. destruct H as [H0 H1].
  destruct (Z.eq_dec k n) as [->|Hne]; [exact H0|].
  apply (IH (n + 1)%Z H1). lia.
Qed.

Lemma brightness_table : all_from (Z.to_nat 255001) 0 = true.
Proof. vm_compute; reflexivity. Qed.

(** [n / 1000 < 128] on floats is [n < 128000] for every weighted sum of
    three bytes. *)
Lemma brightness_test (n : Z) :
  (0 <= n <= 255000)%Z ->
  (float_of_Z n / 1000 <? 128)%float = (n <? 128000)%Z.
Proof.
  intros Hn.
  assert (H : brightness_ok n = true).
  { apply (all_from_spec (Z.to_nat 255001) 0 n brightness_table).
    rewrite Z2Nat.id; lia. }
  unfold brightness_ok in H. apply eqb_prop in H. exact H.
Qed.

Lemma default_palette_normalized (hex : string) :
  In hex default_palette -> is_normalized_color hex = true.
Proof.
  unfold default_palette. intros H.
  repeat (destruct H as [<-|H]; [reflexivity|]). destruct H.
Qed.

Lemma rgb_to_hex_reading (r g b : Z) :
  byte_triple (r, g, b) = true ->
  is_normalized_color (rgb_to_hex (r, g, b)) = true
  /\ hex_to_rgb (rgb_to_hex (r, g, b)) = Some (r, g, b)
  /\ swatch_rgb (rgb_to_hex (r, g, b)) = Some (r, g, b).
Proof.
  intros H. apply byte_triple_spec in H. destruct H as [Hr [Hg Hb]].
  destruct (format_02X_three_normalized r g b Hr Hg Hb) as [N E].
  change (rgb_to_hex (r, g, b))
    with ("#" ++ format_02X r ++ format_02X g ++ format_02X b)%string.
  split; [exact N|]. split; [exact E|].
  destruct (normalized_color_reading _ N) as [r' [g' [b' [E' [S' _]]]]].
  rewrite E in E'. rewrite S'. symmetry. exact E'.
Qed.

End Palette.

(** X12. [_extract_colors_from_screenshot] returns NormalizedColors only,
    whether the palette of byte triples is computed or the [except] clause
    answers with its ten defaults; on a computed palette it returns one colour
    per triple, and the decoders of [_create_palette_image] and of
    [_get_contrast_ratio] both read each colour back as its triple. *)
Theorem palette_colors_decode_back (dominant_colors : list (Z * Z * Z)) :
  forallb byte_triple dominant_colors = true ->
  (forall hex,
      In hex (_extract_colors_from_screenshot (Some dominant_colors))
      \/ In hex (_extract_colors_from_screenshot None) ->
      is_normalized_color hex = true)
  /\ map swatch_rgb (_extract_colors_from_screenshot (Some dominant_colors))
     = map Some dominant_colors
  /\ map hex_to_rgb (_extract_colors_from_screenshot (Some dominant_colors))
     = map Some dominant_colors.
Proof.
  intros H. cbn [_extract_colors_from_screenshot].
  pose proof (proj1 (forallb_forall _ _) H) as Hall. clear H.
  split; [|split].
  - intros hex [Hin|Hin]; [|apply default_palette_normalized, Hin].
    apply in_map_iff in Hin. destruct Hin as [[[r g] b] [<- Hin]].
    apply rgb_to_hex_reading, Hall, Hin.
  - rewrite map_map. apply map_ext_in. intros [[r g] b] Hin.
    apply rgb_to_hex_reading, Hall, Hin.
  - rewrite map_map. apply map_ext_in. intros [[r g] b] Hin.
    apply rgb_to_hex_reading, Hall, Hin.
Qed.

(** X12 on a palette of three colours. *)
Lemma palette_colors_decode_back_example :
  (forall hex,
      In hex (_extract_colors_from_screenshot (Some [(255, 87, 51); (0, 0, 0); (9, 171, 16)]%Z))
      \/ In hex (_extract_colors_from_screenshot None) ->
      is_normalized_color hex = true)
  /\ map swatch_rgb
       (_extract_colors_from_screenshot (Some [(255, 87, 51); (0, 0, 0); (9, 171, 16)]%Z))
     = map Some [(255, 87, 51); (0, 0, 0); (9, 171, 16)]%Z
  /\ map hex_to_rgb
       (_extract_colors_from_screenshot (Some [(255, 87, 51); (0, 0, 0); (9, 171, 16)]%Z))
     = map Some [(255, 87, 51); (0, 0, 0); (9, 171, 16)]%Z.
Proof.
  apply (palette_colors_decode_back [(255, 87, 51); (0, 0, 0); (9, 171, 16)]%Z).
  reflexivity.
Defined.

(** X13. On a NormalizedColor the label colour of [_create_palette_image]
    is always computed: the three slices are read as bytes [r], [g], [b], the
    same as [_get_contrast_ratio] reads, and the label is white exactly when
    [299 r + 587 g + 114 b < 128000], black otherwise. *)
Theorem swatch_label_of_normalized_color (hex_color : string) :
  is_normalized_color hex_color = true ->
  exists r g b,
    swatch_rgb hex_color = Some (r, g, b)
    /\ hex_to_rgb hex_color = Some (r, g, b)
    /\ ((0 <= r <= 255)%Z /\ (0 <= g <= 255)%Z /\ (0 <= b <= 255)%Z)
    /\ swatch_text_color hex_color
       = Some (if (r * 299 + g * 587 + b * 114 <? 128000)%Z then "white" else "black").
Proof.
  intros H.
  destruct (normalized_color_reading _ H) as [r [g [b [E [S [Hr [Hg Hb]]]]]]].
  exists r, g, b. repeat split; try assumption; try lia.
  unfold swatch_text_color. rewrite S. cbv zeta.
  rewrite brightness_test by lia. reflexivity.
Qed.

(** X13 on a dark and on a light colour. *)
Lemma swatch_label_of_normalized_color_examples :
  (exists r g b,
      swatch_rgb "#336699" = Some (r, g, b)
      /\ hex_to_rgb "#336699" = Some (r, g, b)
      /\ ((0 <= r <= 255)%Z /\ (0 <= g <= 255)%Z /\ (0 <= b <= 255)%Z)
      /\ swatch_text_color "#336699"
         = Some (if (r * 299 + g * 587 + b * 114 <? 128000)%Z then "white" else "black"))
  /\ swatch_text_color "#336699" = Some "white"
  /\ swatch_text_color "#FFD700" = Some "black".
Proof.
  split; [apply (swatch_label_of_normalized_color "#336699"); reflexivity|].
  split; vm_compute; reflexivity.
Defined.

(** ** Contrast ratio: the order of the two colours *)

Section Symmetry.

Lemma SFcompare_antisym (x y : spec_float) :
  SFcompare y x = option_map CompOpp (SFcompare x y).
Proof.
  destruct x as [s1|s1| |s1 m1 e1], y as [s2|s2| |s2 m2 e2];
    try destruct s1; try destruct s2; try reflexivity;
    cbn [SFcompare option_map]; f_equal;
    rewrite (Z.compare_antisym e1 e2);
    assert (A : Pos.compare_cont Eq m2 m1 = CompOpp (Pos.compare_cont Eq m1 m2))
      by (symmetry; exact (Pos.compare_cont_antisym m1 m2 Eq));
    rewrite A;
    destruct (e1 ?= e2)%Z, (Pos.compare_cont Eq m1 m2); reflexivity.
Qed.

Lemma SFcompare_None (x y : spec_float) :
  SFcompare x y = None -> x = S754_nan \/ y = S754_nan.
Proof.
  destruct x as [s1|s1| |s1 m1 e1], y as [s2|s2| |s2 m2 e2];
    cbn [SFcompare]; intros H; first [discriminate H | auto].
Qed.

(** Two floats that compare equal are the same float or two zeros. *)
Lemma SFcompare_Eq (x y : spec_float) :
  SFcompare x y = Some Eq ->
  x = y \/ exists s1 s2, x = S754_zero s1 /\ y = S754_zero s2.
Proof.
  destruct x as [s1|s1| |s1 m1 e1], y as [s2|s2| |s2 m2 e2];
    try destruct s1; try destruct s2; cbn [SFcompare]; intros H;
    try discriminate H; try (left; reflexivity); try (right; eauto; fail).
  - destruct (e1 ?= e2)%Z eqn:Ee; try discriminate H.
    apply Z.compare_eq in Ee. injection H as H.
    destruct (Pos.compare_cont Eq m1 m2) eqn:Em; try discriminate H.
    apply Pos.compare_eq in Em. subst. left; reflexivity.
  - destruct (e1 ?= e2)%Z eqn:Ee; try discriminate H.
    apply Z.compare_eq in Ee. injection H as H.
    apply Pos.compare_eq in H. subst. left; reflexivity.
Qed.

Lemma offset_spec : Prim2SF 0.05 = S754_finite false 7205759403792794 (-57).
Proof. vm_compute. reflexivity. Qed.

Lemma not_nan_spec (a : float) : PrimFloat.is_nan a = false -> Prim2SF a <> S754_nan.
Proof.
  unfold PrimFloat.is_nan. rewrite eqb_spec. intros H E. rewrite E in H. discriminate H.
Qed.

Lemma plus_offset_of_equal (a b : float) :
  SFcompare (Prim2SF a) (Prim2SF b) = Some Eq -> (a + 0.05 = b + 0.05)%float.
Proof.
  intros H. destruct (SFcompare_Eq _ _ H) as [E|[s1 [s2 [Ea Eb]]]].
  - apply Prim2SF_inj in E. rewrite E. reflexivity.
  - apply Prim2SF_inj. rewrite !add_spec, Ea, Eb, offset_spec. reflexivity.
Qed.

(** [max] and [min] of two floats that are not NaN, whichever comes first,
    up to the sign of a zero, which the added 0.05 absorbs. *)
Lemma fmax_fmin_offset (a b : float) :
  PrimFloat.is_nan a = false -> PrimFloat.is_nan b = false ->
  (fmax a b + 0.05 = fmax b a + 0.05)%float
  /\ (fmin a b + 0.05 = fmin b a + 0.05)%float.
Proof.
  intros Ha Hb. apply not_nan_spec in Ha, Hb.
  unfold fmax, fmin. rewrite !ltb_spec. unfold SFltb.
  rewrite (SFcompare_antisym (Prim2SF a) (Prim2SF b)).
  destruct (SFcompare (Prim2SF a) (Prim2SF b)) as [[| |]|] eqn:E; cbn [option_map CompOpp].
  - pose proof (plus_offset_of_equal a b E). split; assumption.
  - split; reflexivity.
  - split; reflexivity.
  - destruct (SFcompare_None _ _ E); contradiction.
Qed.

End Symmetry.

(** X14. [_get_contrast_ratio] does not depend on the order of its two
    colours, provided no luminance is a NaN (with a NaN, [max] and [min] keep
    their first argument and the order matters).  When either colour cannot
    be read, both orders give 1.0. *)
Theorem contrast_ratio_symmetric
  (fpow : float -> float -> float) (color1 color2 : string) :
  (forall lum, luminance fpow color1 = Some lum -> PrimFloat.is_nan lum = false) ->
  (forall lum, luminance fpow color2 = Some lum -> PrimFloat.is_nan lum = false) ->
  _get_contrast_ratio fpow color1 color2 = _get_contrast_ratio fpow color2 color1.
Proof.
  intros H1 H2. unfold _get_contrast_ratio, contrast_ratio_body.
  destruct (luminance fpow color1) as [lum1|]; destruct (luminance fpow color2) as [lum2|];
    try reflexivity.
  cbv zeta.
  destruct (fmax_fmin_offset lum1 lum2 (H1 _ eq_refl) (H2 _ eq_refl)) as [-> ->].
  reflexivity.
Qed.

(** X14 on a grey and white. *)
Lemma contrast_ratio_symmetric_example :
  _get_contrast_ratio pow_ref "#777777" "#FFFFFF"
  = _get_contrast_ratio pow_ref "#FFFFFF" "#777777".
Proof.
  apply (contrast_ratio_symmetric pow_ref "#777777" "#FFFFFF");
    intros lum H; vm_compute in H; injection H as <-; reflexivity.
Defined.

(** ** Normalisation: white space around the text *)

Section SurroundingSpace.

Lemma rstrip_all_space (post : string) : all_space post = true -> rstrip post = "".
Proof.
  unfold all_space. induction post as [|c t IH]; [reflexivity|].
  cbn [forallb_string]. intros H. apply andb_true_iff in H. destruct H as [Hc Ht].
  cbn [rstrip]. rewrite (IH Ht), Hc. reflexivity.
Qed.

Lemma rstrip_app_space (s post : string) :
  all_space post = true -> rstrip (s ++ post) = rstrip s.
Proof.
  intros H. induction s as [|c t IH].
  - apply rstrip_all_space, H.
  - change (String c t ++ post)%string with (String c (t ++ post)).
    cbn [rstrip]. rewrite IH. reflexivity.
Qed.

Lemma strip_space_app (pre s : string) :
  all_space pre = true -> strip (pre ++ s) = strip s.
Proof.
  unfold all_space, strip. induction pre as [|c t IH]; [reflexivity|].
  cbn [forallb_string]. intros H. apply andb_true_iff in H. destruct H as [Hc Ht].
  change (String c t ++ s)%string with (String c (t ++ s)).
  cbn [rstrip]. specialize (IH Ht).
  destruct (rstrip (t ++ s)) as [|c' t'] eqn:E.
  - rewrite Hc. rewrite <- IH. reflexivity.
  - cbn [lstrip]. rewrite Hc. exact IH.
Qed.

Lemma strip_surrounding_space (pre s post : string) :
  all_space pre = true -> all_space post = true ->
  strip (pre ++ s ++ post) = strip s.
Proof.
  intros Hpre Hpost. rewrite (strip_space_app _ _ Hpre).
  unfold strip. rewrite (rstrip_app_space _ _ Hpost). reflexivity.
Qed.

End SurroundingSpace.

(** X15. White space before and after the text never changes the result of
    [_convert_to_hex], in any of its branches: the text is stripped once and
    only the stripped text is looked at. *)
Theorem convert_to_hex_ignores_surrounding_space
  (name_to_hex : string -> option string) (pre raw post : string) :
  all_space pre = true -> all_space post = true ->
  _convert_to_hex name_to_hex (pre ++ raw ++ post) = _convert_to_hex name_to_hex raw.
Proof.
  intros Hpre Hpost. unfold _convert_to_hex, convert_to_hex_body.
  rewrite (strip_surrounding_space pre raw post Hpre Hpost). reflexivity.
Qed.

(** X15 on an [rgb] text between blanks. *)
Lemma convert_to_hex_ignores_surrounding_space_example :
  _convert_to_hex no_names ("  " ++ "rgb(255, 87, 51)" ++ " ")
  = _convert_to_hex no_names "rgb(255, 87, 51)".
Proof.
  apply (convert_to_hex_ignores_surrounding_space no_names "  " "rgb(255, 87, 51)" " ");
    reflexivity.
Defined.
